(** * train/train.py: the orchestration script of the training pipeline

    The script picks a run mode, prepares the log and checkpoint
    directories and supervises two worker processes ([polybeast.main] and
    [pantheon_env.main]).  Everything it does is an effect: it mutates the
    [flags] namespace it was given, it reads and writes the filesystem, it
    logs, and it starts, joins and kills processes.

    The embedding keeps these effects explicit.  A [World] holds
    - the heap of [Flags] objects (so that [copy.deepcopy] and the
      in-place mutation of a shared namespace are told apart),
    - the filesystem, a finite map from resolved paths to nodes,
    - the chronological list of the effects performed so far.

    Each Python function becomes a computation in a small monad whose
    outcomes are normal return, a raised exception, or blocking forever in
    [join].

    Filesystem model.  Paths are resolved lexically: a path string is cut
    at every "/" and empty components are dropped; relative paths are read
    from the root, which stands for the working directory.  This is what
    the operating system does for a path none of whose components is "."
    or ".." ([plain_path]); the statements about the filesystem carry
    this as a hypothesis.  Symbolic links and permissions are outside the
    model.  What the two worker processes do is
    not code of this file: it is a parameter ([Env]) of every definition
    that touches a process. *)

From Stdlib Require Import Ascii String.
From stdpp Require Import gmap strings list fin_maps.

Local Open Scope string_scope.
Local Open Scope list_scope.

(** ** Path strings: [os.path.join] *)

Module Path.

Definition sep : ascii := "/"%char.

(** [b.startswith("/")] *)
Definition startswith_sep (s : string) : bool :=
  match s with
  | String c _ => Ascii.eqb c sep
  | EmptyString => false
  end.

(** [a.endswith("/")] *)
Fixpoint endswith_sep (s : string) : bool :=
  match s with
  | EmptyString => false
  | String c EmptyString => Ascii.eqb c sep
  | String _ s' => endswith_sep s'
  end.

(** [posixpath.join(a, b)] for one component [b]:
    an absolute [b] replaces [a]; an empty [a] or one that already ends in
    the separator takes [b] as is; otherwise a separator is put between. *)
Definition os_path_join (a b : string) : string :=
  if startswith_sep b then b
  else if String.eqb a "" || endswith_sep a then a +:+ b
  else a +:+ "/" +:+ b.

Definition flush (cur : string) : list string :=
  match cur with
  | EmptyString => []
  | _ => [cur]
  end.

(** The components of a path string, left to right; [cur] is the
    component being read. *)
Fixpoint split_from (cur s : string) : list string :=
  match s with
  | EmptyString => flush cur
  | String c s' =>
      if Ascii.eqb c sep then flush cur ++ split_from "" s'
      else split_from (cur +:+ String c "") s'
  end.

Definition components (s : string) : list string := split_from "" s.

(** The empty string names nothing ([ENOENT]).  Reading a path as the
    list of its components is right for the paths that are [plain_path]:
    "." and ".." are not followed here. *)
Definition resolve (s : string) : option (list string) :=
  if String.eqb s "" then None else Some (components s).

(** No component of the path is "." or "..". *)
Definition plain_path (s : string) : bool :=
  forallb (λ c, negb (String.eqb c ".") && negb (String.eqb c ".."))
          (components s).

End Path.

Import Path.

(** ** The filesystem *)

Inductive node := File | Dir.

#[global] Instance node_eq_dec : EqDecision node.
Proof. solve_decision. Defined.

Abbreviation FileSys := (gmap (list string) node).

(** The root is always a directory and is not stored. *)
Definition node_at (fs : FileSys) (p : list string) : option node :=
  match p with
  | [] => Some Dir
  | _ => fs !! p
  end.

(** Every stored path has all its proper ancestors stored as directories. *)
Definition fs_wf (fs : FileSys) : Prop :=
  fs !! ([] : list string) = None ∧
  ∀ (q : list string) (c : string) (n : node),
    fs !! (q ++ [c]) = Some n → node_at fs q = Some Dir.

(** What [shutil.rmtree] removes: the tree rooted at [p]. *)
Definition remove_under (p : list string) (fs : FileSys) : FileSys :=
  filter (λ kv, ¬ p `prefix_of` kv.1) fs.

(** What [os.makedirs(_, exist_ok=True)] creates: the missing directories
    along [rest] below [pre]; it fails on a component that is a file. *)
Fixpoint mkdir_p (pre rest : list string) (fs : FileSys) : option FileSys :=
  match rest with
  | [] => Some fs
  | c :: rest' =>
      let q := pre ++ [c] in
      match fs !! q with
      | Some File => None
      | Some Dir => mkdir_p q rest' fs
      | None => mkdir_p q rest' (<[q := Dir]> fs)
      end
  end.

(** ** Flags, processes, events, worlds *)

(** The attributes of the [argparse] namespace this script reads or
    writes.  [mode] and [base_logdir] come from the parser; the others are
    assigned by the script and may be unset before. *)
Record Flags := mkFlags {
  mode : string;
  base_logdir : string;
  logdir : option string;
  savedir : option string;
  checkpoint : option string;
  traced_model : option string;
  address : option string;
  disable_cuda : option bool;
  cc_env_mode : option string
}.

Definition set_mode (v : string) (f : Flags) : Flags :=
  mkFlags v (base_logdir f) (logdir f) (savedir f) (checkpoint f)
          (traced_model f) (address f) (disable_cuda f) (cc_env_mode f).
Definition set_logdir (v : string) (f : Flags) : Flags :=
  mkFlags (mode f) (base_logdir f) (Some v) (savedir f) (checkpoint f)
          (traced_model f) (address f) (disable_cuda f) (cc_env_mode f).
Definition set_savedir (v : string) (f : Flags) : Flags :=
  mkFlags (mode f) (base_logdir f) (logdir f) (Some v) (checkpoint f)
          (traced_model f) (address f) (disable_cuda f) (cc_env_mode f).
Definition set_checkpoint (v : string) (f : Flags) : Flags :=
  mkFlags (mode f) (base_logdir f) (logdir f) (savedir f) (Some v)
          (traced_model f) (address f) (disable_cuda f) (cc_env_mode f).
Definition set_traced_model (v : string) (f : Flags) : Flags :=
  mkFlags (mode f) (base_logdir f) (logdir f) (savedir f) (checkpoint f)
          (Some v) (address f) (disable_cuda f) (cc_env_mode f).
Definition set_address (v : string) (f : Flags) : Flags :=
  mkFlags (mode f) (base_logdir f) (logdir f) (savedir f) (checkpoint f)
          (traced_model f) (Some v) (disable_cuda f) (cc_env_mode f).
Definition set_disable_cuda (v : bool) (f : Flags) : Flags :=
  mkFlags (mode f) (base_logdir f) (logdir f) (savedir f) (checkpoint f)
          (traced_model f) (address f) (Some v) (cc_env_mode f).
Definition set_cc_env_mode (v : string) (f : Flags) : Flags :=
  mkFlags (mode f) (base_logdir f) (logdir f) (savedir f) (checkpoint f)
          (traced_model f) (address f) (disable_cuda f) (Some v).

(** The two [mp.Process] targets. *)
Inductive proc := Polybeast | PantheonEnv.

#[global] Instance proc_eq_dec : EqDecision proc.
Proof. solve_decision. Defined.

(** The effects the script performs, in the order it performs them.  A
    started process receives the flags as they are at [start()]: the child
    works on its own copy. *)
Inductive event :=
  | EvExists (path : string)
  | EvRmtree (path : string)
  | EvMakedirs (path : string)
  | EvRemove (path : string)
  | EvLog (msg : string)
  | EvStart (p : proc) (args : Flags)
  | EvJoin (p : proc)
  | EvKill (p : proc).

Abbreviation loc := nat.

Record World := mkWorld {
  heap : list Flags;
  fs : FileSys;
  events : list event
}.

Definition with_heap (h : list Flags) (w : World) : World :=
  mkWorld h (fs w) (events w).
Definition with_fs (m : FileSys) (w : World) : World :=
  mkWorld (heap w) m (events w).
Definition emit (e : event) (w : World) : World :=
  mkWorld (heap w) (fs w) (events w ++ [e]).

(** What the worker processes do, as seen from the script: whether a
    joined child ever exits, and the filesystem the children leave behind
    when the script next looks, both as functions of the history. *)
Record Env := mkEnv {
  child_exits : list event → FileSys → bool;
  child_fs : list event → FileSys → FileSys
}.

(** ** The monad of the script *)

Inductive exn :=
  | AssertionError (msg : string)
  | RuntimeError (msg : string)
  | OSError
  | AttributeError (attr : string)
  | SystemError.

Inductive outcome (A : Type) :=
  | Ret (a : A)
  | Raise (e : exn)
  | Blocked.
Arguments Ret {A} a.
Arguments Raise {A} e.
Arguments Blocked {A}.

Definition M (A : Type) : Type := World → outcome A * World.

Definition ret {A} (a : A) : M A := λ w, (Ret a, w).
Definition raise {A} (e : exn) : M A := λ w, (Raise e, w).
Definition bind {A B} (m : M A) (k : A → M B) : M B :=
  λ w, match m w with
       | (Ret a, w') => k a w'
       | (Raise e, w') => (Raise e, w')
       | (Blocked, w') => (Blocked, w')
       end.

Declare Scope script_scope.
Delimit Scope script_scope with script.
Notation "'let*' x := m 'in' k" := (bind m (λ x, k))
  (at level 10, x name, m at level 100, k at level 200) : script_scope.
Notation "m >> k" := (bind m (λ _, k))
  (at level 100, k at level 200, right associativity) : script_scope.
Local Open Scope script_scope.

(** [try: m  except OSError: pass] *)
Definition except_OSError_pass (m : M unit) : M unit :=
  λ w, match m w with
       | (Raise OSError, w') => (Ret tt, w')
       | r => r
       end.

(** ** Primitive effects *)

Definition get_flags (flags : loc) : M Flags :=
  λ w, match heap w !! flags with
       | Some f => (Ret f, w)
       | None => (Raise SystemError, w)
       end.

(** [flags.attr = v] *)
Definition setattr (flags : loc) (upd : Flags → Flags) : M unit :=
  let* f := get_flags flags in
  λ w, (Ret tt, with_heap (<[flags := upd f]> (heap w)) w).

(** [flags.attr] for an attribute that is always there *)
Definition getattr {A} (flags : loc) (proj : Flags → A) : M A :=
  let* f := get_flags flags in ret (proj f).

(** [flags.attr] for an attribute that may be unset *)
Definition getattr_opt {A} (flags : loc) (proj : Flags → option A)
    (name : string) : M A :=
  let* f := get_flags flags in
  match proj f with
  | Some v => ret v
  | None => raise (AttributeError name)
  end.

(** [copy.deepcopy(flags)]: a new object with the same attribute values *)
Definition copy_deepcopy (flags : loc) : M loc :=
  let* f := get_flags flags in
  λ w, (Ret (length (heap w)), with_heap (heap w ++ [f]) w).

Definition logging_info (msg : string) : M unit :=
  λ w, (Ret tt, emit (EvLog msg) w).

(** The filesystem calls, first as functions of the filesystem alone. *)

(** [os.path.exists(path)] *)
Definition fs_exists (path : string) (m : FileSys) : bool :=
  match resolve path with
  | None => false
  | Some p => bool_decide (is_Some (node_at m p))
  end.

(** [shutil.rmtree(path)]: the path must be a directory; the tree below it
    goes; the root itself cannot be removed, and its content is gone by
    the time that fails.  The boolean tells whether the call returned. *)
Definition fs_rmtree (path : string) (m : FileSys) : bool * FileSys :=
  match resolve path with
  | None => (false, m)
  | Some p =>
      match node_at m p with
      | Some Dir => (bool_decide (p ≠ []), remove_under p m)
      | _ => (false, m)
      end
  end.

(** [os.makedirs(path, exist_ok=True)] *)
Definition fs_makedirs (path : string) (m : FileSys) : option FileSys :=
  match resolve path with
  | None => None
  | Some p => mkdir_p [] p m
  end.

(** [os.remove(path)]: removes a file, fails on anything else *)
Definition fs_remove (path : string) (m : FileSys) : option FileSys :=
  match resolve path with
  | None => None
  | Some p =>
      match node_at m p with
      | Some File => Some (delete p m)
      | _ => None
      end
  end.

Definition os_path_exists (path : string) : M bool :=
  λ w, (Ret (fs_exists path (fs w)), emit (EvExists path) w).

Definition shutil_rmtree (path : string) : M unit :=
  λ w,
    let r := fs_rmtree path (fs w) in
    (if r.1 then Ret tt else Raise OSError,
     with_fs r.2 (emit (EvRmtree path) w)).

Definition os_makedirs (path : string) : M unit :=
  λ w,
    match fs_makedirs path (fs w) with
    | Some m => (Ret tt, with_fs m (emit (EvMakedirs path) w))
    | None => (Raise OSError, emit (EvMakedirs path) w)
    end.

Definition os_remove (path : string) : M unit :=
  λ w,
    match fs_remove path (fs w) with
    | Some m => (Ret tt, with_fs m (emit (EvRemove path) w))
    | None => (Raise OSError, emit (EvRemove path) w)
    end.

Section Script.

Variable env : Env.

(** [proc = mp.Process(target=p, args=(flags,)); proc.start()] *)
Definition start (p : proc) (flags : loc) : M unit :=
  let* f := get_flags flags in
  λ w, (Ret tt, emit (EvStart p f) w).

(** [proc.join()]: returns once the child has exited, if it ever does *)
Definition join (p : proc) : M unit :=
  λ w,
    let w := emit (EvJoin p) w in
    if child_exits env (events w) (fs w)
    then (Ret tt, with_fs (child_fs env (events w) (fs w)) w)
    else (Blocked, w).

(** [proc.kill()] *)
Definition kill (p : proc) : M unit :=
  λ w,
    let w := emit (EvKill p) w in
    (Ret tt, with_fs (child_fs env (events w) (fs w)) w).

(** ** The script *)

Definition init_logdirs (flags : loc) : M unit :=
  let* base := getattr flags base_logdir in
  let* m := getattr flags mode in
  setattr flags (set_logdir (os_path_join base m)) >>
  let* ld := getattr_opt flags logdir "logdir" in
  setattr flags (set_savedir (os_path_join ld "torchbeast")) >>
  (* Clean run for test mode *)
  let* m := getattr flags mode in
  (if negb (String.eqb m "train") then
     let* ld := getattr_opt flags logdir "logdir" in
     let* there := os_path_exists ld in
     if there then
       let* ld := getattr_opt flags logdir "logdir" in
       shutil_rmtree ld
     else ret tt
   else ret tt) >>
  let* ld := getattr_opt flags logdir "logdir" in
  os_makedirs ld >>
  let* sd := getattr_opt flags savedir "savedir" in
  os_makedirs sd >>
  let* base := getattr flags base_logdir in
  setattr flags (set_checkpoint (os_path_join base "checkpoint.tar")) >>
  let* base := getattr flags base_logdir in
  setattr flags (set_traced_model (os_path_join base "traced_model.pt")) >>
  let* m := getattr flags mode in
  if negb (String.eqb m "train") then
    let* ck := getattr_opt flags checkpoint "checkpoint" in
    let* there := os_path_exists ck in
    if there then ret tt
    else
      let* ck := getattr_opt flags checkpoint "checkpoint" in
      let* m := getattr flags mode in
      raise (AssertionError
               ("Checkpoint " +:+ ck +:+ " missing in " +:+ m +:+ " mode"))
  else ret tt.

Definition rl_server_path : string := "/tmp/rl_server_path".

Definition run_remote (flags : loc) (train : bool) : M unit :=
  setattr flags (set_mode (if train then "train" else "test")) >>
  init_logdirs flags >>
  (* Unix domain socket path for RL server address *)
  let address := rl_server_path in
  except_OSError_pass (os_remove address) >>
  setattr flags (set_address ("unix:" +:+ address)) >>
  setattr flags (set_disable_cuda (negb train)) >>
  setattr flags (set_cc_env_mode "remote") >>
  let* m := getattr flags mode in
  let* ld := getattr_opt flags logdir "logdir" in
  logging_info ("Starting " +:+ m +:+ ", logdir=" +:+ ld) >>
  start Polybeast flags >>
  start PantheonEnv flags >>
  (if train then
     (* Training is driven by polybeast. *)
     join Polybeast >>
     kill PantheonEnv
   else
     (* Testing is driven by pantheon_env. *)
     join PantheonEnv >>
     kill Polybeast) >>
  let* m := getattr flags mode in
  logging_info ("Done " +:+ m).

Definition trace (flags : loc) : M unit :=
  setattr flags (set_mode "trace") >>
  init_logdirs flags >>
  let* ck := getattr_opt flags checkpoint "checkpoint" in
  logging_info ("Tracing model from checkpoint " +:+ ck) >>
  start Polybeast flags >>
  join Polybeast >>
  let* tm := getattr_opt flags traced_model "traced_model" in
  logging_info ("Done tracing to " +:+ tm).

Definition test_local (flags : loc) : M unit :=
  setattr flags (set_mode "test") >>
  init_logdirs flags >>
  let* tm := getattr_opt flags traced_model "traced_model" in
  let* there := os_path_exists tm in
  (if negb there then
     logging_info "Missing traced model, tracing first" >>
     let* copy := copy_deepcopy flags in
     trace copy
   else ret tt) >>
  setattr flags (set_cc_env_mode "local") >>
  let* ld := getattr_opt flags logdir "logdir" in
  logging_info ("Starting local test, logdir=" +:+ ld) >>
  start PantheonEnv flags >>
  join PantheonEnv >>
  logging_info "Done local test".

Definition main (flags : loc) : M unit :=
  let* mode := getattr flags mode in
  logging_info ("Mode=" +:+ mode) >>
  (if String.eqb mode "train" then
     (* Train, trace, and then test *)
     run_remote flags true >>
     trace flags >>
     run_remote flags false
   else if String.eqb mode "test" then
     (* Only remote test *)
     run_remote flags false
   else if String.eqb mode "test_local" then
     (* Only local test *)
     test_local flags
   else if String.eqb mode "trace" then
     trace flags
   else
     raise (RuntimeError ("Unknown mode " +:+ mode))) >>
  let* ck := getattr_opt flags checkpoint "checkpoint" in
  let* tm := getattr_opt flags traced_model "traced_model" in
  logging_info ("All done! Checkpoint: " +:+ ck +:+ ", traced model: " +:+ tm).

End Script.

(** ** Vocabulary of the statements *)

(** The paths [os.makedirs] visits: the non-empty prefixes of [rest],
    below [pre]. *)
Fixpoint ancestors (pre rest : list string) : list (list string) :=
  match rest with
  | [] => []
  | c :: rest' => (pre ++ [c]) :: ancestors (pre ++ [c]) rest'
  end.


(** The four paths [init_logdirs] derives from the flags. *)
Definition logdir_of (f : Flags) : string :=
  os_path_join (base_logdir f) (mode f).
Definition savedir_of (f : Flags) : string :=
  os_path_join (logdir_of f) "torchbeast".
Definition checkpoint_of (f : Flags) : string :=
  os_path_join (base_logdir f) "checkpoint.tar".
Definition traced_model_of (f : Flags) : string :=
  os_path_join (base_logdir f) "traced_model.pt".

Definition with_logdirs (f : Flags) : Flags :=
  set_savedir (savedir_of f) (set_logdir (logdir_of f) f).
Definition with_paths (f : Flags) : Flags :=
  set_traced_model (traced_model_of f)
    (set_checkpoint (checkpoint_of f) (with_logdirs f)).

Definition is_train (f : Flags) : bool := String.eqb (mode f) "train".

Definition clean_run (f : Flags) (m : FileSys) : bool * FileSys * list event :=
  if negb (is_train f) then
    if fs_exists (logdir_of f) m
    then (fs_rmtree (logdir_of f) m,
          [EvExists (logdir_of f); EvRmtree (logdir_of f)])
    else (true, m, [EvExists (logdir_of f)])
  else (true, m, []).

Definition make_run (f : Flags) (m : FileSys) : bool * FileSys * list event :=
  match fs_makedirs (logdir_of f) m with
  | None => (false, m, [EvMakedirs (logdir_of f)])
  | Some m1 =>
      match fs_makedirs (savedir_of f) m1 with
      | None => (false, m1, [EvMakedirs (logdir_of f); EvMakedirs (savedir_of f)])
      | Some m2 => (true, m2, [EvMakedirs (logdir_of f); EvMakedirs (savedir_of f)])
      end
  end.

Definition dirs_run (f : Flags) (m : FileSys) : bool * FileSys * list event :=
  let '(ok, m1, e1) := clean_run f m in
  if ok then
    let '(ok2, m2, e2) := make_run f m1 in (ok2, m2, e1 ++ e2)
  else (false, m1, e1).

Definition missing_msg (f : Flags) : string :=
  "Checkpoint " +:+ checkpoint_of f +:+ " missing in " +:+ mode f +:+ " mode".

Definition init_run (f : Flags) (m : FileSys)
    : outcome unit * Flags * FileSys * list event :=
  let '(ok, m', evs) := dirs_run f m in
  if ok then
    if negb (is_train f) then
      (if fs_exists (checkpoint_of f) m' then Ret tt
       else Raise (AssertionError (missing_msg f)),
       with_paths f, m', evs ++ [EvExists (checkpoint_of f)])
    else (Ret tt, with_paths f, m', evs)
  else (Raise OSError, with_logdirs f, m', evs).


(** The processes started, in order. *)
Definition started (evs : list event) : list proc :=
  omap (λ e, match e with EvStart p _ => Some p | _ => None end) evs.

(** What [run_remote] assigns after [init_logdirs]. *)
Definition remote_flags (train : bool) (f : Flags) : Flags :=
  set_cc_env_mode "remote"
    (set_disable_cuda (negb train)
       (set_address ("unix:" +:+ rl_server_path) f)).

(** The process [run_remote] waits for, and the one it kills. *)
Definition driver (train : bool) : proc :=
  if train then Polybeast else PantheonEnv.
Definition follower (train : bool) : proc :=
  if train then PantheonEnv else Polybeast.

Definition remote_mode (train : bool) : string :=
  if train then "train" else "test".

(** The filesystem after [try: os.remove(address) except OSError: pass]. *)
Definition socket_cleared (m : FileSys) : FileSys :=
  default m (fs_remove rl_server_path m).

(** The processes a computation starts when run from [w]. *)
Definition started_by {A} (m : M A) (w : World) : list proc :=
  started (drop (length (events w)) (events (m w).2)).

(** The caller's flags when [test_local] starts its process. *)
Definition local_flags (f : Flags) : Flags :=
  set_cc_env_mode "local" (with_paths (set_mode "test" f)).

(** The world in which [test_local] runs [trace] on the copy: the copy
    sits at the end of the heap of [w2], the world [init_logdirs] left. *)
Definition copy_world (f : Flags) (w2 : World) : World :=
  mkWorld (heap w2 ++ [with_paths (set_mode "test" f)]) (fs w2)
          (events w2 ++
             [EvExists (traced_model_of f);
              EvLog "Missing traced model, tracing first"]).

(** [test_local] from [flags.cc_env_mode = "local"] on, run from [w4]. *)
Definition local_test_tail (env : Env) (l : loc) (f : Flags) (w4 : World)
    : outcome unit * World :=
  let evs := events w4 ++
    [EvLog ("Starting local test, logdir=" +:+ logdir_of (set_mode "test" f));
     EvStart PantheonEnv (local_flags f); EvJoin PantheonEnv] in
  if child_exits env evs (fs w4) then
    (Ret tt,
     mkWorld (<[l := local_flags f]> (heap w4)) (child_fs env evs (fs w4))
             (evs ++ [EvLog "Done local test"]))
  else (Blocked, mkWorld (<[l := local_flags f]> (heap w4)) (fs w4) evs).

(** The last statement of [main]. *)
Definition closing_log (flags : loc) : M unit :=
  let* ck := getattr_opt flags checkpoint "checkpoint" in
  let* tm := getattr_opt flags traced_model "traced_model" in
  logging_info ("All done! Checkpoint: " +:+ ck +:+ ", traced model: " +:+ tm).

Definition known_modes : list string :=
  ["train"; "test"; "test_local"; "trace"].

(** A checker for [fs_wf]: every stored path but the root has its parent
    stored as a directory. *)
Definition fs_wf_check (m : FileSys) : bool :=
  bool_decide (m !! ([] : list string) = None) &&
  forallb (λ kv, match kv.1 with
                 | [] => true
                 | _ => bool_decide (node_at m (removelast kv.1) = Some Dir)
                 end)
          (map_to_list m).

(** What the directory phase may do to the paths outside the log
    directory [pl]: what is there stays as it is, and what appears is a
    directory on the way to [pl]. *)
Definition kept_outside (pl : list string) (X Z : FileSys) : Prop :=
  ∀ q, ¬ pl `prefix_of` q →
    (∀ n, X !! q = Some n → Z !! q = Some n) ∧
    (X !! q = None →
       Z !! q = None ∨ Z !! q = Some Dir ∧ q ≠ [] ∧ q `prefix_of` pl).

(** The message of the failed checkpoint test in mode [md]. *)
Definition checkpoint_missing (f : Flags) (md : string) : string :=
  "Checkpoint " +:+ checkpoint_of f +:+ " missing in " +:+ md +:+ " mode".

(** How a stage of the script, entered from [w] with flags [f] at [l], may
    end in [r]: it returns in mode [md] with the two file paths set, having
    started the processes [ps]; or it blocks or fails on the way, with the
    only errors a filesystem error and the failed checkpoint test. *)
Definition stage_ends (l : loc) (f : Flags) (md : string) (ps : list proc)
    (w : World) (r : outcome unit * World) : Prop :=
  ∃ g evs,
    heap r.2 !! l = Some g ∧ base_logdir g = base_logdir f ∧
    events r.2 = events w ++ evs ∧
    match r.1 with
    | Ret _ =>
        mode g = md ∧ checkpoint g = Some (checkpoint_of f) ∧
        traced_model g = Some (traced_model_of f) ∧ started evs = ps
    | Blocked => started evs `prefix_of` ps
    | Raise e =>
        started evs `prefix_of` ps ∧
        (e = OSError ∨
         ∃ md', md' ∈ ["test"; "trace"] ∧
           e = AssertionError (checkpoint_missing f md'))
    end.

(** ** A small installation, for examples

    [logs/] holds a checkpoint and the logs of an earlier test run; both
    worker processes exit when joined and leave the filesystem alone. *)

Definition quiet : Env := mkEnv (λ _ _, true) (λ _ m, m).

Definition example_flags (md : string) : Flags :=
  mkFlags md "logs" None None None None None None None.

Definition bare_fs : FileSys :=
  <[ ["logs"; "test"; "old.log"] := File ]>
    (<[ ["logs"; "test"] := Dir ]> (<[ ["logs"] := Dir ]> ∅)).

Definition example_fs : FileSys :=
  <[ ["logs"; "checkpoint.tar"] := File ]> bare_fs.

Definition example_world (md : string) : World :=
  mkWorld [example_flags md] example_fs [].

(** The same, without the checkpoint. *)
Definition bare_world (md : string) : World :=
  mkWorld [example_flags md] bare_fs [].


(** * Facts about paths *)

Module PathFacts.

Lemma append_nil_l (b : string) : "" +:+ b = b.
Proof. reflexivity. Qed.

Lemma append_cons (c : ascii) (a b : string) :
  String c a +:+ b = String c (a +:+ b).
Proof. reflexivity. Qed.

Lemma append_nil_r (a : string) : a +:+ "" = a.
Proof. induction a as [|c a IH]; [done|]. by rewrite append_cons, IH. Qed.

Lemma append_assoc (a b c : string) : (a +:+ b) +:+ c = a +:+ b +:+ c.
Proof.
  induction a as [|x a IH]; [done|]. by rewrite !append_cons, IH.
Qed.

Lemma split_from_app_sep (x y cur : string) :
  split_from cur (x +:+ String sep y) = split_from cur x ++ split_from "" y.
Proof.
  revert cur. induction x as [|c x IH]; intros cur;
    rewrite ?append_nil_l, ?append_cons; simpl.
  - done.
  - destruct (Ascii.eqb c sep).
    + rewrite IH. by rewrite app_assoc.
    + apply IH.
Qed.

Lemma endswith_sep_inv (a : string) :
  endswith_sep a = true → ∃ a', a = a' +:+ String sep "".
Proof.
  induction a as [|c a IH]; simpl; [done|].
  destruct a as [|d a].
  - intros ->%Ascii.eqb_eq. by exists "".
  - intros [a' E]%IH. exists (String c a'). by rewrite append_cons, <- E.
Qed.

Lemma split_from_trailing_sep (a cur : string) :
  split_from cur (a +:+ String sep "") = split_from cur a.
Proof. by rewrite split_from_app_sep, app_nil_r. Qed.

Lemma components_join (a b : string) :
  startswith_sep b = false →
  components (os_path_join a b) = components a ++ components b.
Proof.
  intros Hb. unfold os_path_join, components. rewrite Hb.
  destruct (String.eqb_spec a "") as [->|Ha]; simpl; [done|].
  destruct (endswith_sep a) eqn:He.
  - apply endswith_sep_inv in He as [a' ->].
    rewrite split_from_trailing_sep.
    rewrite append_assoc, append_cons, append_nil_l.
    apply split_from_app_sep.
  - apply split_from_app_sep.
Qed.

Lemma join_nonempty (a b : string) : b ≠ "" → os_path_join a b ≠ "".
Proof.
  intros Hb. unfold os_path_join.
  destruct (startswith_sep b); [done|].
  destruct (_ || _); destruct a, b; done.
Qed.

Lemma resolve_join_name (a b : string) :
  startswith_sep b = false → b ≠ "" →
  resolve (os_path_join a b) = Some (components a ++ components b).
Proof.
  intros Hs Hb. unfold resolve.
  destruct (String.eqb_spec (os_path_join a b) "") as [E|_].
  - by apply join_nonempty in E.
  - by rewrite components_join.
Qed.

Lemma resolve_Some (s : string) (p : list string) :
  resolve s = Some p → p = components s.
Proof. unfold resolve. destruct (String.eqb s ""); congruence. Qed.

End PathFacts.

Import PathFacts.

(** * Facts about the filesystem *)

Module FsFacts.

Lemma elem_of_ancestors (pre rest q : list string) :
  q ∈ ancestors pre rest ↔ ∃ r, r ≠ [] ∧ r `prefix_of` rest ∧ q = pre ++ r.
Proof.
  revert pre. induction rest as [|c rest IH]; intros pre; simpl.
  - split; [by intros ?%elem_of_nil|].
    intros (r & Hr & ->%prefix_nil_inv & _). done.
  - rewrite elem_of_cons, IH. split.
    + intros [->|(r & Hr & Hp & ->)].
      * exists [c]. split_and!; [done| |done].
        apply (prefix_cons c [] rest), prefix_nil.
      * exists (c :: r). split_and!; [done| |by rewrite <- app_assoc].
        by apply prefix_cons.
    + intros (r & Hr & Hp & ->). destruct r as [|d r]; [done|].
      apply prefix_cons_inv_1 in Hp as Hd. subst d.
      apply prefix_cons_inv_2 in Hp.
      destruct r as [|e r]; [by left|right].
      exists (e :: r). split_and!; [done|done|by rewrite <- app_assoc].
Qed.

Lemma elem_of_ancestors_nil (p q : list string) :
  q ∈ ancestors [] p ↔ q ≠ [] ∧ q `prefix_of` p.
Proof.
  rewrite elem_of_ancestors. split.
  - intros (r & ? & ? & ->). done.
  - intros [? ?]. by exists q.
Qed.

Lemma ancestors_not_pre (pre rest : list string) : pre ∉ ancestors pre rest.
Proof.
  rewrite elem_of_ancestors. intros (r & Hr & _ & E).
  apply (f_equal length) in E. rewrite length_app in E.
  destruct r; simpl in *; [done|lia].
Qed.

Lemma mkdir_p_lookup (pre rest : list string) (m m' : FileSys) (q : list string) :
  mkdir_p pre rest m = Some m' →
  m' !! q = if decide (q ∈ ancestors pre rest) then Some Dir else m !! q.
Proof.
  revert pre m. induction rest as [|c rest IH]; intros pre m; simpl.
  - by intros [= <-].
  - destruct (m !! (pre ++ [c])) as [n|] eqn:E; [destruct n; [done|]|];
      intros H; apply IH in H; rewrite H; clear H;
      destruct (decide (q = pre ++ [c])) as [->|Hne].
    + rewrite decide_False by apply ancestors_not_pre.
      rewrite decide_True by (by left). done.
    + destruct (decide (q ∈ ancestors (pre ++ [c]) rest)) as [H|H];
        [rewrite decide_True by (by right)
        |rewrite decide_False by (by intros [?|?]%elem_of_cons)]; done.
    + rewrite decide_False by apply ancestors_not_pre.
      rewrite decide_True by (by left). by rewrite lookup_insert_eq.
    + rewrite lookup_insert_ne by done.
      destruct (decide (q ∈ ancestors (pre ++ [c]) rest)) as [H|H];
        [rewrite decide_True by (by right)
        |rewrite decide_False by (by intros [?|?]%elem_of_cons)]; done.
Qed.

Lemma mkdir_p_None (pre rest : list string) (m : FileSys) :
  mkdir_p pre rest m = None ↔
  ∃ q, q ∈ ancestors pre rest ∧ m !! q = Some File.
Proof.
  revert pre m. induction rest as [|c rest IH]; intros pre m; simpl.
  - split; [done|]. by intros (q & ?%elem_of_nil & _).
  - setoid_rewrite elem_of_cons.
    destruct (m !! (pre ++ [c])) as [[]|] eqn:E.
    + split; [|done]. intros _. exists (pre ++ [c]). auto.
    + rewrite IH. split.
      * intros (q & ? & ?). exists q. auto.
      * intros (q & [->|?] & ?); [congruence|]. by exists q.
    + rewrite IH. split.
      * intros (q & Hq & Hf). exists q. split; [auto|].
        destruct (decide (q = pre ++ [c])) as [->|];
          [by rewrite lookup_insert_eq in Hf|by rewrite lookup_insert_ne in Hf].
      * intros (q & [->|?] & Hf); [congruence|]. exists q. split; [done|].
        rewrite lookup_insert_ne; [done|congruence].
Qed.

Lemma mkdir_p_same (pre rest : list string) (m : FileSys) :
  (∀ q, q ∈ ancestors pre rest → m !! q = Some Dir) →
  mkdir_p pre rest m = Some m.
Proof.
  revert pre. induction rest as [|c rest IH]; intros pre H; simpl; [done|].
  rewrite (H (pre ++ [c])) by (simpl; left).
  apply IH. intros q Hq. apply H. simpl. by right.
Qed.

Lemma remove_under_lookup (p q : list string) (m : FileSys) :
  remove_under p m !! q = if decide (p `prefix_of` q) then None else m !! q.
Proof.
  unfold remove_under. destruct (decide _) as [H|H].
  - apply map_lookup_filter_None. right. intros x _. simpl. auto.
  - destruct (m !! q) as [x|] eqn:E.
    + by apply map_lookup_filter_Some.
    + apply map_lookup_filter_None. by left.
Qed.

Lemma node_at_cons (m : FileSys) (p : list string) :
  p ≠ [] → node_at m p = m !! p.
Proof. by destruct p. Qed.

(** In a well-formed filesystem every ancestor of a stored path is a
    directory, and nothing is stored below a path that is absent. *)
Lemma wf_ancestor_dir (m : FileSys) (q r : list string) (n : node) :
  fs_wf m → m !! (q ++ r) = Some n → r ≠ [] → node_at m q = Some Dir.
Proof.
  intros [_ Hwf]. revert n. induction r as [|c r IH] using rev_ind; [done|].
  intros n Hn _. rewrite app_assoc in Hn. apply Hwf in Hn.
  destruct r as [|d r]; [by rewrite app_nil_r in Hn|].
  rewrite node_at_cons in Hn by (by destruct q).
  eapply IH; [exact Hn|done].
Qed.

Lemma wf_absent_under (m : FileSys) (p q : list string) :
  fs_wf m → node_at m p = None → p `prefix_of` q → m !! q = None.
Proof.
  intros Hwf Hp [r ->]. destruct (m !! (p ++ r)) as [n|] eqn:E; [|done].
  destruct r as [|c r].
  - rewrite app_nil_r in E. destruct p; simpl in Hp; congruence.
  - eapply wf_ancestor_dir in E; [congruence|done|done].
Qed.

Lemma wf_file_under (m : FileSys) (p q : list string) :
  fs_wf m → m !! p = Some File → p `prefix_of` q → q = p ∨ m !! q = None.
Proof.
  intros Hwf Hp [r ->]. destruct r as [|c r]; [left; by rewrite app_nil_r|].
  right. destruct (m !! (p ++ c :: r)) as [n|] eqn:E; [|done].
  eapply wf_ancestor_dir in E; [|done|done].
  destruct p; simpl in *; [|congruence]. destruct Hwf as [? _]; congruence.
Qed.

End FsFacts.

Import FsFacts.

Lemma ancestors_snoc (pre rest : list string) (c : string) :
  ancestors pre (rest ++ [c]) = ancestors pre rest ++ [pre ++ rest ++ [c]].
Proof.
  revert pre. induction rest as [|d rest IH]; intros pre; simpl; [done|].
  rewrite IH. by rewrite <- !app_assoc.
Qed.

Lemma elem_of_ancestors_snoc (p q : list string) (c : string) :
  q ∈ ancestors [] (p ++ [c]) ↔ q ∈ ancestors [] p ∨ q = p ++ [c].
Proof. rewrite ancestors_snoc, elem_of_app, list_elem_of_singleton. done. Qed.

Lemma ancestors_under (p q : list string) :
  q ∈ ancestors [] p → p `prefix_of` q → q = p.
Proof.
  intros [_ H1]%elem_of_ancestors_nil H2. by apply (anti_symm prefix).
Qed.

Lemma snoc_under (p : list string) (c : string) : p `prefix_of` p ++ [c].
Proof. by exists [c]. Qed.

Lemma self_ancestor (p : list string) : p ≠ [] → p ∈ ancestors [] p.
Proof. intros. by apply elem_of_ancestors_nil. Qed.

(** Making [p] and then [p/c] from [X]. *)
Section Build.
Variables (p : list string) (c : string) (X Y Z : FileSys).
Hypothesis HY : mkdir_p [] p X = Some Y.
Hypothesis HZ : mkdir_p [] (p ++ [c]) Y = Some Z.

Lemma build_lookup (q : list string) :
  Z !! q = if decide (q ∈ ancestors [] (p ++ [c])) then Some Dir else X !! q.
Proof.
  rewrite (mkdir_p_lookup _ _ _ _ q HZ), (mkdir_p_lookup _ _ _ _ q HY).
  destruct (decide (q ∈ ancestors [] (p ++ [c]))) as [H|H]; [done|].
  rewrite decide_False; [done|]. intros ?. apply H.
  apply elem_of_ancestors_snoc. by left.
Qed.

Lemma build_again :
  mkdir_p [] p Z = Some Z ∧ mkdir_p [] (p ++ [c]) Z = Some Z.
Proof.
  split; apply mkdir_p_same; intros q Hq; rewrite build_lookup.
  - rewrite decide_True; [done|]. apply elem_of_ancestors_snoc. by left.
  - by rewrite decide_True.
Qed.

Lemma rebuild :
  p ≠ [] → (∀ q, p `prefix_of` q → X !! q = None) →
  ∃ Y', mkdir_p [] p (remove_under p Z) = Some Y' ∧
        mkdir_p [] (p ++ [c]) Y' = Some Z.
Proof.
  intros Hp HX.
  destruct (mkdir_p [] p (remove_under p Z)) as [Y'|] eqn:HY'.
  2:{ apply mkdir_p_None in HY' as (q & Hq & Hf).
      rewrite remove_under_lookup, build_lookup in Hf.
      destruct (decide (p `prefix_of` q)); [done|].
      rewrite decide_True in Hf; [done|].
      apply elem_of_ancestors_snoc. by left. }
  exists Y'. split; [done|].
  destruct (mkdir_p [] (p ++ [c]) Y') as [Z'|] eqn:HZ'.
  2:{ apply mkdir_p_None in HZ' as (q & Hq & Hf).
      rewrite (mkdir_p_lookup _ _ _ _ q HY') in Hf.
      destruct (decide (q ∈ ancestors [] p)); [done|].
      apply elem_of_ancestors_snoc in Hq as [?| ->]; [done|].
      rewrite remove_under_lookup in Hf.
      rewrite decide_True in Hf by apply snoc_under. done. }
  f_equal. apply map_eq. intros q.
  rewrite (mkdir_p_lookup _ _ _ _ q HZ'), (mkdir_p_lookup _ _ _ _ q HY').
  rewrite remove_under_lookup, !build_lookup.
  destruct (decide (q ∈ ancestors [] (p ++ [c]))) as [H|H]; [done|].
  rewrite decide_False.
  2:{ intros ?. apply H. apply elem_of_ancestors_snoc. by left. }
  destruct (decide (p `prefix_of` q)); [by rewrite HX|done].
Qed.

(** What is left below [p] is [p] itself and [p/c]. *)
Lemma build_fresh (q : list string) :
  (∀ q, p `prefix_of` q → X !! q = None) →
  p `prefix_of` q → is_Some (Z !! q) → q = p ∨ q = p ++ [c].
Proof.
  intros HX Hq. rewrite build_lookup.
  destruct (decide (q ∈ ancestors [] (p ++ [c]))) as [H|H].
  - intros _. apply elem_of_ancestors_snoc in H as [H| ->]; [|by right].
    left. by apply ancestors_under.
  - rewrite HX by done. by intros [? ?].
Qed.
End Build.

(** * Running the script step by step *)

Lemma insert_twice (h : list Flags) (l : nat) (f g : Flags) :
  <[l := g]> (<[l := f]> h) = <[l := g]> h.
Proof. apply list_insert_insert_eq. Qed.

Lemma lookup_inserted (h : list Flags) (l : nat) (f g : Flags) :
  h !! l = Some f → <[l := g]> h !! l = Some g.
Proof. intros H%lookup_lt_Some. by apply list_lookup_insert_eq. Qed.


Section Steps.
Context {A B : Type}.
Implicit Types (w : World) (l : nat) (f : Flags).

Lemma run_getattr l (proj : Flags → A) (k : A → M B) w f :
  heap w !! l = Some f → bind (getattr l proj) k w = k (proj f) w.
Proof. intros H. unfold getattr, get_flags, ret, bind. by rewrite H. Qed.

Lemma run_getattr_opt l (proj : Flags → option A) nm (k : A → M B) w f v :
  heap w !! l = Some f → proj f = Some v →
  bind (getattr_opt l proj nm) k w = k v w.
Proof.
  intros H Hv. unfold getattr_opt, get_flags, ret, bind. by rewrite H, Hv.
Qed.

Lemma run_setattr l upd (k : unit → M B) w f :
  heap w !! l = Some f →
  bind (setattr l upd) k w = k tt (with_heap (<[l := upd f]> (heap w)) w).
Proof. intros H. unfold setattr, get_flags, bind. by rewrite H. Qed.

Lemma run_exists path (k : bool → M B) w :
  bind (os_path_exists path) k w
  = k (fs_exists path (fs w)) (emit (EvExists path) w).
Proof. reflexivity. Qed.

Lemma run_logging_info msg (k : unit → M B) w :
  bind (logging_info msg) k w = k tt (emit (EvLog msg) w).
Proof. reflexivity. Qed.

Lemma run_ret (a : A) (k : A → M B) w : bind (ret a) k w = k a w.
Proof. reflexivity. Qed.

Lemma run_raise e (k : A → M B) w : bind (raise e) k w = (Raise e, w).
Proof. reflexivity. Qed.

Lemma run_bind_assoc {C} (m : M A) (k : A → M B) (k' : B → M C) w :
  bind (bind m k) k' w = bind m (λ a, bind (k a) k') w.
Proof. unfold bind. by destruct (m w) as [[a|e|] w']. Qed.
End Steps.

Lemma run_rmtree {B} path (k : unit → M B) w :
  bind (shutil_rmtree path) k w =
    let r := fs_rmtree path (fs w) in
    let w' := with_fs r.2 (emit (EvRmtree path) w) in
    if r.1 then k tt w' else (Raise OSError, w').
Proof. unfold bind, shutil_rmtree. simpl. by destruct (fs_rmtree _ _).1. Qed.

Lemma run_makedirs {B} path (k : unit → M B) w :
  bind (os_makedirs path) k w =
    match fs_makedirs path (fs w) with
    | Some m => k tt (with_fs m (emit (EvMakedirs path) w))
    | None => (Raise OSError, emit (EvMakedirs path) w)
    end.
Proof. unfold bind, os_makedirs. by destruct (fs_makedirs _ _). Qed.

Ltac heap_side :=
  simpl; first [eassumption | eapply lookup_inserted; eassumption | reflexivity].

Ltac step :=
  first
    [ rewrite run_bind_assoc
    | erewrite run_getattr by heap_side
    | erewrite run_getattr_opt by heap_side
    | erewrite run_setattr by heap_side
    | rewrite run_exists
    | rewrite run_logging_info
    | rewrite run_ret
    | rewrite run_raise
    | rewrite run_rmtree
    | rewrite run_makedirs ];
  unfold with_heap, with_fs, emit;
  cbn [heap fs events mode base_logdir logdir savedir
       checkpoint traced_model address disable_cuda cc_env_mode
       set_mode set_logdir set_savedir set_checkpoint set_traced_model
       set_address set_disable_cuda set_cc_env_mode fst snd];
  rewrite ?insert_twice.

Ltac crack :=
  match goal with
  | |- context [fs_exists ?p ?m] => destruct (fs_exists p m) eqn:?
  | |- context [fs_rmtree ?p ?m] => destruct (fs_rmtree p m) as [[] ?] eqn:?
  | |- context [fs_makedirs ?p ?m] => destruct (fs_makedirs p m) eqn:?
  end.

Ltac run_with H :=
  repeat first
    [ progress (step; rewrite ?H)
    | crack; cbn [fst snd] in *; rewrite ?H ].

Lemma init_logdirs_run (l : nat) (w : World) (f : Flags) :
  heap w !! l = Some f →
  init_logdirs l w =
    let '(r, f', m', evs) := init_run f (fs w) in
    (r, mkWorld (<[l := f']> (heap w)) m' (events w ++ evs)).
Proof.
  intros Hl. destruct w as [h m ev]. simpl in Hl.
  unfold init_logdirs, init_run, dirs_run, clean_run, make_run, is_train,
    missing_msg, with_paths, with_logdirs, checkpoint_of, traced_model_of,
    savedir_of, logdir_of.
  do 6 step.
  destruct (negb (mode f =? "train")) eqn:Htr; run_with Htr;
    rewrite <- ?app_assoc; reflexivity.
Qed.

(** * The directory phase of [init_logdirs] *)

Lemma resolve_savedir (f : Flags) :
  resolve (savedir_of f) = Some (components (logdir_of f) ++ ["torchbeast"]).
Proof. unfold savedir_of. by rewrite resolve_join_name. Qed.

Lemma remove_under_root (m : FileSys) : remove_under [] m = ∅.
Proof.
  apply map_eq. intros q. rewrite remove_under_lookup, lookup_empty.
  by rewrite decide_True by apply prefix_nil.
Qed.

(** The directory phase in terms of resolved paths. *)
Lemma make_run_unresolved (f : Flags) (m : FileSys) :
  resolve (logdir_of f) = None →
  make_run f m = (false, m, [EvMakedirs (logdir_of f)]).
Proof. intros H. unfold make_run, fs_makedirs. by rewrite H. Qed.

Lemma make_run_idem (f : Flags) (m m1 : FileSys) (ok : bool) evs :
  make_run f m = (ok, m1, evs) → ∃ evs', make_run f m1 = (ok, m1, evs').
Proof.
  unfold make_run, fs_makedirs. rewrite resolve_savedir.
  destruct (resolve (logdir_of f)) as [p|] eqn:Hp; [|intros [= <- <- <-]; eauto].
  set (c := "torchbeast").
  destruct (mkdir_p [] p m) as [Y|] eqn:HY.
  2:{ intros [= <- <- <-]. rewrite HY. eauto. }
  apply resolve_Some in Hp as Hp'. rewrite <- Hp'.
  destruct (mkdir_p [] (p ++ [c]) Y) as [Z|] eqn:HZ; intros [= <- <- <-].
  - destruct (build_again p c m Y Z HY HZ) as [-> ->]. eauto.
  - assert (mkdir_p [] p Y = Some Y) as ->.
    { apply mkdir_p_same. intros q Hq.
      rewrite (mkdir_p_lookup _ _ _ _ q HY). by rewrite decide_True. }
    rewrite HZ. eauto.
Qed.

Lemma make_run_resolved (f : Flags) (p : list string) (X : FileSys) :
  resolve (logdir_of f) = Some p →
  make_run f X =
    match mkdir_p [] p X with
    | None => (false, X, [EvMakedirs (logdir_of f)])
    | Some Y =>
        match mkdir_p [] (p ++ ["torchbeast"]) Y with
        | None =>
            (false, Y, [EvMakedirs (logdir_of f); EvMakedirs (savedir_of f)])
        | Some Z =>
            (true, Z, [EvMakedirs (logdir_of f); EvMakedirs (savedir_of f)])
        end
    end.
Proof.
  intros Hp. unfold make_run, fs_makedirs. rewrite resolve_savedir, Hp.
  by rewrite <- (resolve_Some _ _ Hp).
Qed.

Lemma make_child_fresh (p : list string) (c : string) (X Y : FileSys) :
  p ≠ [] → (∀ q, p `prefix_of` q → X !! q = None) →
  mkdir_p [] p X = Some Y → is_Some (mkdir_p [] (p ++ [c]) Y).
Proof.
  intros Hp HX HY.
  destruct (mkdir_p [] (p ++ [c]) Y) as [Z|] eqn:HZ; [by eexists|].
  apply mkdir_p_None in HZ as (q & Hq & Hf).
  rewrite (mkdir_p_lookup _ _ _ _ q HY) in Hf.
  destruct (decide (q ∈ ancestors [] p)); [done|].
  apply elem_of_ancestors_snoc in Hq as [?| ->]; [done|].
  rewrite HX in Hf by apply snoc_under. done.
Qed.

Lemma make_after_rmtree (p : list string) (m : FileSys) :
  fs_wf m → m !! p = Some Dir → is_Some (mkdir_p [] p (remove_under p m)).
Proof.
  intros Hwf Hd.
  destruct (mkdir_p [] p (remove_under p m)) as [Y|] eqn:HY; [by eexists|].
  apply mkdir_p_None in HY as (q & Hq & Hf).
  rewrite remove_under_lookup in Hf.
  destruct (decide (p `prefix_of` q)) as [|Hn]; [done|].
  apply elem_of_ancestors_nil in Hq as [Hq [r ->]].
  destruct r as [|d r]; [by rewrite app_nil_r in Hn|].
  eapply wf_ancestor_dir in Hd; [|done|done].
  rewrite node_at_cons in Hd by done. congruence.
Qed.

Lemma remove_under_nothing (p : list string) (m : FileSys) :
  ∀ q, p `prefix_of` q → remove_under p m !! q = None.
Proof. intros q Hq. by rewrite remove_under_lookup, decide_True. Qed.

(** Running the directory phase of a test mode on the filesystem it has
    just built gives that filesystem back. *)
Lemma rerun_built (f : Flags) (p : list string) (X Y Z : FileSys) :
  resolve (logdir_of f) = Some p → p ≠ [] →
  (∀ q, p `prefix_of` q → X !! q = None) →
  mkdir_p [] p X = Some Y → mkdir_p [] (p ++ ["torchbeast"]) Y = Some Z →
  node_at Z p = Some Dir ∧
  ∃ evs, make_run f (remove_under p Z) = (true, Z, evs).
Proof.
  intros Hr Hp HX HY HZ. split.
  - rewrite node_at_cons by done. rewrite (build_lookup _ _ _ _ _ HY HZ).
    rewrite decide_True; [done|].
    apply elem_of_ancestors_snoc. left. by apply self_ancestor.
  - destruct (rebuild _ _ _ _ _ HY HZ Hp HX) as (Y' & HY' & HZ').
    rewrite (make_run_resolved _ _ _ Hr), HY', HZ'. eauto.
Qed.

Lemma dirs_run_rebuilt (f : Flags) (p : list string) (X Y Z : FileSys) :
  negb (is_train f) = true →
  resolve (logdir_of f) = Some p → p ≠ [] →
  (∀ q, p `prefix_of` q → X !! q = None) →
  mkdir_p [] p X = Some Y → mkdir_p [] (p ++ ["torchbeast"]) Y = Some Z →
  ∃ evs, dirs_run f Z = (true, Z, evs).
Proof.
  intros Htr Hr Hp HX HY HZ.
  destruct (rerun_built f p X Y Z Hr Hp HX HY HZ) as [Hd [e He]].
  unfold dirs_run, clean_run, fs_exists, fs_rmtree. rewrite Htr, Hr, Hd.
  rewrite bool_decide_true by eauto. rewrite bool_decide_true by done.
  rewrite He. eauto.
Qed.

Lemma dirs_run_idem (f : Flags) (m m1 : FileSys) (ok : bool) evs :
  fs_wf m → dirs_run f m = (ok, m1, evs) →
  ∃ evs', dirs_run f m1 = (ok, m1, evs').
Proof.
  intros Hwf H. pose proof H as H0. unfold dirs_run, clean_run in H.
  destruct (negb (is_train f)) eqn:Htr.
  2:{ destruct (make_run f m) as [[ok2 m2] e2] eqn:Hm.
      injection H as <- <- <-. unfold dirs_run, clean_run. rewrite Htr.
      apply make_run_idem in Hm as [e' ->]. eauto. }
  unfold fs_exists, fs_rmtree in H.
  destruct (resolve (logdir_of f)) as [p|] eqn:Hp.
  2:{ rewrite make_run_unresolved in H by done.
      injection H as <- <- <-. eauto. }
  destruct (node_at m p) as [[|]|] eqn:Hn.
  - (* the log directory is a file *)
    rewrite bool_decide_true in H by eauto. injection H as <- <- <-. eauto.
  - (* the log directory is there *)
    rewrite bool_decide_true in H by eauto.
    destruct (decide (p = [])) as [->|Hne].
    + rewrite bool_decide_false in H by (intros H'; by apply H').
      injection H as <- <- <-.
      unfold dirs_run, clean_run, fs_exists, fs_rmtree. rewrite Htr, Hp.
      cbn [node_at]. rewrite bool_decide_true by eauto.
      rewrite bool_decide_false by (intros H'; by apply H').
      rewrite !remove_under_root. eauto.
    + rewrite bool_decide_true in H by done.
      rewrite node_at_cons in Hn by done.
      destruct (make_after_rmtree p m Hwf Hn) as [Y HY].
      destruct (make_child_fresh p "torchbeast" _ Y Hne
                  (remove_under_nothing p m) HY) as [Z HZ].
      rewrite (make_run_resolved _ _ _ Hp), HY, HZ in H.
      injection H as <- <- <-.
      eapply dirs_run_rebuilt; eauto using remove_under_nothing.
  - (* the log directory is not there *)
    rewrite bool_decide_false in H by (by intros [? ?]).
    assert (p ≠ []) as Hne by (by intros ->).
    assert (∀ q, p `prefix_of` q → m !! q = None) as HX
      by (intros q; by apply wf_absent_under).
    rewrite (make_run_resolved _ _ _ Hp) in H.
    destruct (mkdir_p [] p m) as [Y|] eqn:HY.
    + destruct (make_child_fresh p "torchbeast" _ Y Hne HX HY) as [Z HZ].
      rewrite HZ in H. injection H as <- <- <-.
      eapply dirs_run_rebuilt; eauto.
    + injection H as <- <- <-. eauto.
Qed.

(** * What [init_logdirs] does *)

(** [init_run] never blocks, and tells which flags it leaves. *)
Lemma init_run_cases (f : Flags) (m : FileSys) :
  ∃ ok m' evs, dirs_run f m = (ok, m', evs) ∧
    init_run f m =
      if ok then
        if negb (is_train f) then
          (if fs_exists (checkpoint_of f) m' then Ret tt
           else Raise (AssertionError (missing_msg f)),
           with_paths f, m', evs ++ [EvExists (checkpoint_of f)])
        else (Ret tt, with_paths f, m', evs)
      else (Raise OSError, with_logdirs f, m', evs).
Proof.
  unfold init_run. destruct (dirs_run f m) as [[ok m'] evs]. by exists ok, m', evs.
Qed.

Lemma started_app (a b : list event) : started (a ++ b) = started a ++ started b.
Proof. apply omap_app. Qed.

Lemma clean_run_events (f : Flags) (m m' : FileSys) ok evs :
  clean_run f m = (ok, m', evs) →
  evs = [] ∧ is_train f = true ∧ ok = true ∧ m' = m ∨
  is_train f = false ∧
    (evs = [EvExists (logdir_of f)] ∧ fs_exists (logdir_of f) m = false
       ∧ ok = true ∧ m' = m ∨
     evs = [EvExists (logdir_of f); EvRmtree (logdir_of f)]
       ∧ fs_exists (logdir_of f) m = true
       ∧ fs_rmtree (logdir_of f) m = (ok, m')).
Proof.
  unfold clean_run. destruct (is_train f); simpl.
  - intros [= <- <- <-]. naive_solver.
  - destruct (fs_exists _ _).
    + destruct (fs_rmtree _ _) as [b g]. intros [= <- <- <-]. naive_solver.
    + intros [= <- <- <-]. naive_solver.
Qed.

Lemma make_run_events (f : Flags) (m m' : FileSys) ok evs :
  make_run f m = (ok, m', evs) →
  evs = [EvMakedirs (logdir_of f)] ∧ ok = false ∨
  evs = [EvMakedirs (logdir_of f); EvMakedirs (savedir_of f)].
Proof.
  unfold make_run. destruct (fs_makedirs _ _); [destruct (fs_makedirs _ _)|];
    intros [= <- <- <-]; auto.
Qed.

Lemma dirs_run_split (f : Flags) (m m' : FileSys) ok evs :
  dirs_run f m = (ok, m', evs) →
  ∃ ok1 m1 e1, clean_run f m = (ok1, m1, e1) ∧
    (ok1 = false ∧ ok = false ∧ m' = m1 ∧ evs = e1 ∨
     ok1 = true ∧ ∃ e2, make_run f m1 = (ok, m', e2) ∧ evs = e1 ++ e2).
Proof.
  unfold dirs_run. destruct (clean_run f m) as [[ok1 m1] e1].
  exists ok1, m1, e1. split; [done|]. destruct ok1.
  - destruct (make_run f m1) as [[ok2 m2] e2].
    injection H as <- <- <-. right. eauto.
  - injection H as <- <- <-. auto.
Qed.

Lemma dirs_run_started (f : Flags) (m m' : FileSys) ok evs :
  dirs_run f m = (ok, m', evs) → started evs = [].
Proof.
  intros (ok1 & m1 & e1 & Hc & H)%dirs_run_split.
  assert (started e1 = []) as He1.
  { apply clean_run_events in Hc as [(-> & _)|(_ & [(-> & _)|(-> & _)])]; done. }
  destruct H as [(_ & _ & _ & ->)|(_ & e2 & Hm & ->)]; [done|].
  rewrite started_app, He1.
  apply make_run_events in Hm as [(-> & _)| ->]; done.
Qed.

Lemma init_logdirs_spec (l : loc) (w : World) (f : Flags) :
  heap w !! l = Some f →
  ∃ ok m' evs, dirs_run f (fs w) = (ok, m', evs) ∧
    init_logdirs l w =
      if ok then
        if negb (is_train f) then
          (if fs_exists (checkpoint_of f) m' then Ret tt
           else Raise (AssertionError (missing_msg f)),
           mkWorld (<[l := with_paths f]> (heap w)) m'
                   (events w ++ evs ++ [EvExists (checkpoint_of f)]))
        else (Ret tt, mkWorld (<[l := with_paths f]> (heap w)) m'
                              (events w ++ evs))
      else (Raise OSError,
            mkWorld (<[l := with_logdirs f]> (heap w)) m' (events w ++ evs)).
Proof.
  intros Hl. rewrite (init_logdirs_run l w f Hl).
  destruct (init_run_cases f (fs w)) as (ok & m' & evs & Hd & ->).
  exists ok, m', evs. split; [done|].
  destruct ok; [destruct (negb (is_train f))|]; done.
Qed.

Lemma is_train_true (f : Flags) : is_train f = true ↔ mode f = "train".
Proof. apply String.eqb_eq. Qed.

Lemma is_train_false (f : Flags) : is_train f = false ↔ mode f ≠ "train".
Proof. apply String.eqb_neq. Qed.

Lemma os_path_join_plain (a b : string) :
  a ≠ "" → endswith_sep a = false → startswith_sep b = false →
  os_path_join a b = a +:+ "/" +:+ b.
Proof.
  intros Ha He Hb. unfold os_path_join. rewrite Hb, He.
  by apply String.eqb_neq in Ha as ->.
Qed.

Lemma append_nonempty (a b : string) : b ≠ "" → a +:+ b ≠ "".
Proof. intros Hb. destruct a; [done|]. by rewrite append_cons. Qed.

Lemma endswith_sep_app (a b : string) :
  b ≠ "" → endswith_sep (a +:+ b) = endswith_sep b.
Proof.
  intros Hb. induction a as [|c a IH]; [done|].
  rewrite append_cons. simpl.
  destruct (a +:+ b) eqn:E; [by apply append_nonempty in E|done].
Qed.

Lemma os_path_join_plain2 (a b c : string) :
  a ≠ "" → endswith_sep a = false → startswith_sep b = false →
  b ≠ "" → endswith_sep b = false → startswith_sep c = false →
  os_path_join (os_path_join a b) c = a +:+ "/" +:+ b +:+ "/" +:+ c.
Proof.
  intros Ha He Hb Hb' Hbe Hc. rewrite (os_path_join_plain a b) by done.
  rewrite os_path_join_plain; [by rewrite !append_assoc|..|done].
  - by apply append_nonempty, append_nonempty.
  - rewrite !endswith_sep_app; [done..|by apply append_nonempty].
Qed.

(** C6: [init_logdirs] derives the four paths from [base_logdir] and
    [mode] alone, whatever their values: [logdir] is
    [os.path.join(base_logdir, mode)], [savedir] is
    [os.path.join(logdir, "torchbeast")], [checkpoint] and [traced_model]
    are [base_logdir] joined with "checkpoint.tar" and "traced_model.pt".
    The last two are assigned after the directories are made, so they are
    set unless a filesystem call failed with [OSError].  For a non-empty
    [base_logdir] without a trailing separator and a plain mode name,
    joining is writing a "/" in between. *)
Theorem init_logdirs_derives_paths (l : loc) (w : World) (f : Flags) :
  heap w !! l = Some f →
  ∃ f', heap (init_logdirs l w).2 !! l = Some f' ∧
    mode f' = mode f ∧ base_logdir f' = base_logdir f ∧
    logdir f' = Some (os_path_join (base_logdir f) (mode f)) ∧
    savedir f' =
      Some (os_path_join (os_path_join (base_logdir f) (mode f)) "torchbeast") ∧
    ((init_logdirs l w).1 ≠ Raise OSError →
     checkpoint f' = Some (os_path_join (base_logdir f) "checkpoint.tar") ∧
     traced_model f' = Some (os_path_join (base_logdir f) "traced_model.pt")) ∧
    (base_logdir f ≠ "" → endswith_sep (base_logdir f) = false →
     mode f ≠ "" → startswith_sep (mode f) = false →
     endswith_sep (mode f) = false →
     logdir f' = Some (base_logdir f +:+ "/" +:+ mode f) ∧
     savedir f' = Some (base_logdir f +:+ "/" +:+ mode f +:+ "/torchbeast") ∧
     os_path_join (base_logdir f) "checkpoint.tar"
       = base_logdir f +:+ "/checkpoint.tar" ∧
     os_path_join (base_logdir f) "traced_model.pt"
       = base_logdir f +:+ "/traced_model.pt").
Proof.
  intros Hl.
  destruct (init_logdirs_spec l w f Hl) as (ok & m' & evs & _ & ->).
  assert (∀ g : Flags, g = with_paths f ∨ g = with_logdirs f →
    mode g = mode f ∧ base_logdir g = base_logdir f ∧
    logdir g = Some (os_path_join (base_logdir f) (mode f)) ∧
    savedir g =
      Some (os_path_join (os_path_join (base_logdir f) (mode f)) "torchbeast"))
    as Hg by (by intros g [-> | ->]).
  assert (base_logdir f ≠ "" → endswith_sep (base_logdir f) = false →
     mode f ≠ "" → startswith_sep (mode f) = false →
     endswith_sep (mode f) = false →
     ∀ g : Flags, g = with_paths f ∨ g = with_logdirs f →
     logdir g = Some (base_logdir f +:+ "/" +:+ mode f) ∧
     savedir g = Some (base_logdir f +:+ "/" +:+ mode f +:+ "/torchbeast") ∧
     os_path_join (base_logdir f) "checkpoint.tar"
       = base_logdir f +:+ "/checkpoint.tar" ∧
     os_path_join (base_logdir f) "traced_model.pt"
       = base_logdir f +:+ "/traced_model.pt") as Hplain.
  { intros Ha He Hm Hs Hme g Hgf.
    destruct (Hg g Hgf) as (_ & _ & -> & ->).
    rewrite os_path_join_plain2, !os_path_join_plain by done. done. }
  destruct ok; [destruct (negb (is_train f))|]; cbn [fst snd heap].
  all: eexists; split; [by eapply lookup_inserted|].
  all: destruct (Hg _ ltac:(eauto)) as (? & ? & ? & ?).
  all: split_and!; try done; try (intros; eapply Hplain; eauto).
  all: by destruct (fs_exists _ _).
Qed.

Lemma dirs_run_train_events (f : Flags) (m m' : FileSys) ok evs :
  is_train f = true → dirs_run f m = (ok, m', evs) →
  evs = [EvMakedirs (logdir_of f)] ∨
  evs = [EvMakedirs (logdir_of f); EvMakedirs (savedir_of f)].
Proof.
  intros Ht (ok1 & m1 & e1 & Hc & H)%dirs_run_split.
  apply clean_run_events in Hc as [(-> & _ & -> & ->)|(? & _)]; [|congruence].
  destruct H as [(? & _)|(_ & e2 & Hm & ->)]; [done|].
  apply make_run_events in Hm as [(-> & _)| ->]; auto.
Qed.

(** The checkpoint test comes last, and only outside mode "train". *)
Lemma init_logdirs_checkpoint_test (l : loc) (w : World) (f : Flags) :
  heap w !! l = Some f →
  let ck := os_path_join (base_logdir f) "checkpoint.tar" in
  let r := init_logdirs l w in
  ∃ evs, events r.2 = events w ++ evs ∧
    (mode f ≠ "train" →
       (r.1 = Ret tt → fs_exists ck (fs r.2) = true) ∧
       (r.1 ≠ Raise OSError →
          (∃ evs0, evs = evs0 ++ [EvExists ck]) ∧
          r.1 = if fs_exists ck (fs r.2) then Ret tt
                else Raise (AssertionError
                       ("Checkpoint " +:+ ck +:+ " missing in " +:+
                        mode f +:+ " mode")))) ∧
    (mode f = "train" →
       (∀ msg, r.1 ≠ Raise (AssertionError msg)) ∧
       (∀ p, EvExists p ∉ evs)).
Proof.
  intros Hl ck r. subst r.
  destruct (init_logdirs_spec l w f Hl) as (ok & m' & evs & Hd & ->).
  destruct ok; [destruct (negb (is_train f)) eqn:Ht|]; cbn [fst snd fs events].
  - apply negb_true_iff, is_train_false in Ht.
    eexists. split; [done|]. split; [|done]. intros _.
    subst ck. unfold missing_msg, checkpoint_of.
    destruct (fs_exists _ m'); split; try done; eauto.
  - apply negb_false_iff in Ht. pose proof Ht as Hm%is_train_true.
    eexists. split; [done|]. split; [done|]. intros _. split; [done|].
    intros p Hp.
    apply list_elem_of_In in Hp.
    apply (dirs_run_train_events _ _ _ _ _ Ht) in Hd as [-> | ->];
      simpl in Hp; intuition congruence.
  - eexists. split; [done|]. split.
    + intros _. done.
    + intros Hm%is_train_true. split; [done|]. intros p Hp.
      apply list_elem_of_In in Hp.
      apply (dirs_run_train_events _ _ _ _ _ Hm) in Hd as [-> | ->];
        simpl in Hp; intuition congruence.
Qed.

Lemma mkdir_p_subseteq (pre rest : list string) (m m' : FileSys) :
  mkdir_p pre rest m = Some m' → m ⊆ m'.
Proof.
  intros H. apply map_subseteq_spec. intros q n Hq.
  rewrite (mkdir_p_lookup _ _ _ _ q H).
  destruct (decide (q ∈ ancestors pre rest)) as [Hin|]; [|done].
  destruct n; [|done].
  assert (mkdir_p pre rest m = None) as E by (apply mkdir_p_None; eauto).
  congruence.
Qed.

Lemma make_run_subseteq (f : Flags) (m m' : FileSys) ok evs :
  make_run f m = (ok, m', evs) → m ⊆ m'.
Proof.
  unfold make_run, fs_makedirs.
  destruct (resolve (logdir_of f)); [|by intros [= <- <- <-]].
  destruct (mkdir_p [] l m) as [Y|] eqn:HY; [|by intros [= <- <- <-]].
  apply mkdir_p_subseteq in HY.
  destruct (resolve (savedir_of f)); [|by intros [= <- <- <-]].
  destruct (mkdir_p [] l0 Y) as [Z|] eqn:HZ; intros [= <- <- <-]; [|done].
  apply mkdir_p_subseteq in HZ. by etrans.
Qed.

(** The directory phase depends on the flags through [mode] and
    [base_logdir] only. *)
Lemma dirs_run_ext (f g : Flags) (m : FileSys) :
  mode g = mode f → base_logdir g = base_logdir f →
  dirs_run g m = dirs_run f m.
Proof.
  intros Hm Hb.
  unfold dirs_run, clean_run, make_run, is_train, savedir_of, logdir_of.
  by rewrite Hm, Hb.
Qed.

(** A test mode that gets through the directory phase has made the log
    directory and the save directory afresh. *)
Lemma dirs_run_test_ok (f : Flags) (m m' : FileSys) evs :
  fs_wf m → is_train f = false → dirs_run f m = (true, m', evs) →
  ∃ pl X Y, resolve (logdir_of f) = Some pl ∧ pl ≠ [] ∧
    (∀ q, pl `prefix_of` q → X !! q = None) ∧
    mkdir_p [] pl X = Some Y ∧ mkdir_p [] (pl ++ ["torchbeast"]) Y = Some m'.
Proof.
  intros Hwf Ht (ok1 & m1 & e1 & Hc & H)%dirs_run_split.
  destruct H as [(_ & ? & _)|(-> & e2 & Hm & ->)]; [done|].
  destruct (resolve (logdir_of f)) as [pl|] eqn:Hr.
  2:{ rewrite make_run_unresolved in Hm by done. done. }
  rewrite (make_run_resolved _ _ _ Hr) in Hm.
  destruct (mkdir_p [] pl m1) as [Y|] eqn:HY; [|done].
  destruct (mkdir_p [] (pl ++ ["torchbeast"]) Y) as [Z|] eqn:HZ; [|done].
  injection Hm as <- _. exists pl, m1, Y.
  apply clean_run_events in Hc as [(_ & ? & _)|(_ & [(_ & He & _ & ->)|(_ & He & Hrm)])];
    [congruence|..].
  - unfold fs_exists in He. rewrite Hr in He.
    apply bool_decide_eq_false in He.
    assert (node_at m pl = None) as Hn.
    { destruct (node_at m pl); [|done]. exfalso. eauto. }
    split_and!; try done; [by intros ->|].
    intros q. by apply wf_absent_under.
  - unfold fs_rmtree in Hrm. rewrite Hr in Hrm.
    destruct (node_at m pl) as [[]|]; try done.
    injection Hrm as Hne <-. apply bool_decide_eq_true in Hne.
    split_and!; try done. apply remove_under_nothing.
Qed.

Lemma dirs_run_fresh (f : Flags) (m m' : FileSys) evs :
  fs_wf m → is_train f = false → dirs_run f m = (true, m', evs) →
  ∃ pl, resolve (logdir_of f) = Some pl ∧
    m' !! pl = Some Dir ∧ m' !! (pl ++ ["torchbeast"]) = Some Dir ∧
    ∀ q, pl `prefix_of` q → is_Some (m' !! q) →
         q = pl ∨ q = pl ++ ["torchbeast"].
Proof.
  intros Hwf Ht Hd.
  destruct (dirs_run_test_ok f m m' evs Hwf Ht Hd)
    as (pl & X & Y & Hr & Hne & HX & HY & HZ).
  exists pl. split_and!; [done|..].
  - rewrite (build_lookup _ _ _ _ _ HY HZ). rewrite decide_True; [done|].
    apply elem_of_ancestors_snoc. left. by apply self_ancestor.
  - rewrite (build_lookup _ _ _ _ _ HY HZ). rewrite decide_True; [done|].
    apply elem_of_ancestors_snoc. by right.
  - intros q. by apply (build_fresh _ _ _ _ _ HY HZ).
Qed.

Lemma dirs_run_train_subseteq (f : Flags) (m m' : FileSys) ok evs :
  is_train f = true → dirs_run f m = (ok, m', evs) → m ⊆ m'.
Proof.
  intros Ht (ok1 & m1 & e1 & Hc & H)%dirs_run_split.
  apply clean_run_events in Hc as [(_ & _ & -> & ->)|(? & _)]; [|congruence].
  destruct H as [(? & _)|(_ & e2 & Hm & _)]; [done|].
  by eapply make_run_subseteq.
Qed.

Lemma dirs_run_clean_first (f : Flags) (m m' : FileSys) ok evs :
  is_train f = false → fs_exists (logdir_of f) m = true →
  dirs_run f m = (ok, m', evs) →
  ∃ evs', evs = EvExists (logdir_of f) :: EvRmtree (logdir_of f) :: evs' ∧
    (EvMakedirs (logdir_of f) ∈ evs' → (fs_rmtree (logdir_of f) m).1 = true).
Proof.
  intros Ht He (ok1 & m1 & e1 & Hc & H)%dirs_run_split.
  apply clean_run_events in Hc
    as [(_ & ? & _)|(_ & [(_ & ? & _)|(-> & _ & Hrm)])]; [congruence..|].
  destruct H as [(-> & _ & _ & ->)|(-> & e2 & _ & ->)].
  - exists []. split; [done|]. by intros ?%elem_of_nil.
  - exists e2. split; [done|]. by rewrite Hrm.
Qed.

Lemma with_paths_fixed (f : Flags) :
  with_paths (with_paths f) = with_paths f ∧
  is_train (with_paths f) = is_train f ∧
  checkpoint_of (with_paths f) = checkpoint_of f ∧
  missing_msg (with_paths f) = missing_msg f.
Proof. by destruct f. Qed.

Lemma with_logdirs_fixed (f : Flags) :
  with_logdirs (with_logdirs f) = with_logdirs f.
Proof. by destruct f. Qed.

(** Running [init_logdirs] again, and what each mode does to the log
    directory. *)
Lemma init_logdirs_rerun (l : loc) (w : World) (f : Flags) :
  heap w !! l = Some f → fs_wf (fs w) →
  let ld := os_path_join (base_logdir f) (mode f) in
  let r1 := init_logdirs l w in
  let r2 := init_logdirs l r1.2 in
  (r2.1 = r1.1 ∧ fs r2.2 = fs r1.2 ∧ heap r2.2 = heap r1.2) ∧
  (mode f = "train" →
     fs w ⊆ fs r1.2 ∧
     ∃ evs, events r1.2 = events w ++ evs ∧ ∀ p, EvRmtree p ∉ evs) ∧
  (mode f ≠ "train" →
     (fs_exists ld (fs w) = true →
        ∃ evs, events r1.2 = events w ++ EvExists ld :: EvRmtree ld :: evs ∧
          (EvMakedirs ld ∈ evs → (fs_rmtree ld (fs w)).1 = true)) ∧
     (r1.1 ≠ Raise OSError →
        ∃ pl, resolve ld = Some pl ∧
          fs r1.2 !! pl = Some Dir ∧
          fs r1.2 !! (pl ++ ["torchbeast"]) = Some Dir ∧
          ∀ q, pl `prefix_of` q → is_Some (fs r1.2 !! q) →
               q = pl ∨ q = pl ++ ["torchbeast"])).
Proof.
  intros Hl Hwf ld r1 r2. subst r2 r1 ld. fold (logdir_of f).
  destruct (init_logdirs_spec l w f Hl) as (ok & m' & evs & Hd & E).
  split; [|split].
  - (* running it again *)
    destruct (dirs_run_idem f _ _ _ _ Hwf Hd) as [evs' Hd'].
    set (f1 := if ok then with_paths f else with_logdirs f).
    set (w1 := (init_logdirs l w).2).
    assert (heap w1 = <[l := f1]> (heap w) ∧ fs w1 = m') as [Hh Hm].
    { subst w1 f1. rewrite E.
      destruct ok; [destruct (negb (is_train f))|]; split; reflexivity. }
    assert (heap w1 !! l = Some f1) as Hl1
      by (rewrite Hh; by eapply lookup_inserted).
    destruct (init_logdirs_spec l w1 f1 Hl1) as (ok2 & m2 & evs2 & Hd2 & E2).
    rewrite Hm, (dirs_run_ext f f1), Hd' in Hd2
      by (subst f1; by destruct ok).
    injection Hd2 as <- <- <-.
    rewrite E2, Hh, Hm, !insert_twice, E. subst f1. clear.
    destruct ok.
    + destruct (with_paths_fixed f) as (-> & -> & -> & ->).
      destruct (negb (is_train f)); [destruct (fs_exists _ m')|];
        repeat split; reflexivity.
    + rewrite with_logdirs_fixed. repeat split; reflexivity.
  - (* train leaves what is there in place *)
    intros Ht%is_train_true. rewrite E. split.
    + apply (dirs_run_train_subseteq _ _ _ _ _ Ht) in Hd.
      rewrite Ht. by destruct ok.
    + exists evs. rewrite Ht. split; [by destruct ok|].
      intros p Hp. apply list_elem_of_In in Hp.
      apply (dirs_run_train_events _ _ _ _ _ Ht) in Hd as [-> | ->];
        simpl in Hp; intuition congruence.
  - (* a test mode clears the log directory first *)
    intros Ht%is_train_false. rewrite E, Ht. split.
    + intros He.
      destruct (dirs_run_clean_first _ _ _ _ _ Ht He Hd) as (evs' & -> & Hk).
      destruct ok; cbn [negb snd events].
      * exists (evs' ++ [EvExists (checkpoint_of f)]).
        split; [done|]. intros [?|Hin]%elem_of_app; [auto|].
        apply list_elem_of_singleton in Hin. done.
      * by exists evs'.
    + destruct ok; cbn [negb fst snd fs]; [intros _|done].
      by apply (dirs_run_fresh f (fs w) m' evs).
Qed.

Lemma run_raised {A B} (m : M A) (k : A → M B) (w w' : World) (e : exn) :
  m w = (Raise e, w') → bind m k w = (Raise e, w').
Proof. intros H. unfold bind. by rewrite H. Qed.

Lemma run_returned {A B} (m : M A) (k : A → M B) (w w' : World) (a : A) :
  m w = (Ret a, w') → bind m k w = k a w'.
Proof. intros H. unfold bind. by rewrite H. Qed.

Lemma run_blocked {A B} (m : M A) (k : A → M B) (w w' : World) :
  m w = (Blocked, w') → bind m k w = (Blocked, w').
Proof. intros H. unfold bind. by rewrite H. Qed.

Section Abort.
Variable env : Env.

(** C10: on a well-formed filesystem and with a plain log directory
    path, when [init_logdirs] raises the [AssertionError] of the checkpoint
    test, the mode is not "train", the checkpoint is missing and no
    process has been started, but the filesystem has changed: the log
    directory and its [torchbeast] directory are there and the log
    directory holds nothing else, whatever it held before.  [run_remote],
    [test_local] and [trace] pass the error on, in the world
    [init_logdirs] left. *)
Theorem init_logdirs_abort_not_atomic
    (l : loc) (w w' : World) (f : Flags) (msg : string) :
  heap w !! l = Some f → fs_wf (fs w) →
  plain_path (os_path_join (base_logdir f) (mode f)) = true →
  init_logdirs l w = (Raise (AssertionError msg), w') →
  mode f ≠ "train" ∧
  fs_exists (os_path_join (base_logdir f) "checkpoint.tar") (fs w') = false ∧
  (∃ evs, events w' = events w ++ evs ∧ started evs = []) ∧
  (∃ pl, resolve (os_path_join (base_logdir f) (mode f)) = Some pl ∧
     fs w' !! pl = Some Dir ∧
     fs w' !! (pl ++ ["torchbeast"]) = Some Dir ∧
     ∀ q, pl `prefix_of` q → is_Some (fs w' !! q) →
          q = pl ∨ q = pl ++ ["torchbeast"]) ∧
  (∀ w0 f0, heap w0 !! l = Some f0 →
     (w = with_heap (<[l := set_mode "test" f0]> (heap w0)) w0 →
        run_remote env l false w0 = (Raise (AssertionError msg), w') ∧
        test_local env l w0 = (Raise (AssertionError msg), w')) ∧
     (w = with_heap (<[l := set_mode "trace" f0]> (heap w0)) w0 →
        trace env l w0 = (Raise (AssertionError msg), w'))).
Proof.
  intros Hl Hwf _ Hrun.
  destruct (init_logdirs_spec l w f Hl) as (ok & m' & evs & Hd & E).
  rewrite Hrun in E.
  destruct ok; [destruct (negb (is_train f)) eqn:Ht|]; try done.
  apply negb_true_iff in Ht.
  fold (checkpoint_of f) (logdir_of f).
  destruct (fs_exists (checkpoint_of f) m') eqn:Hck; [done|].
  injection E as -> ->. cbn [fs events]. split_and!.
  - by apply is_train_false.
  - done.
  - eexists. split; [done|].
    by rewrite started_app, (dirs_run_started _ _ _ _ _ Hd).
  - by apply (dirs_run_fresh f (fs w) m' evs).
  - intros w0 f0 Hl0. split; intros ->.
    + split.
      * unfold run_remote. erewrite run_setattr by done.
        by apply run_raised.
      * unfold test_local. erewrite run_setattr by done.
        by apply run_raised.
    + unfold trace. erewrite run_setattr by done. by apply run_raised.
Qed.

End Abort.

(** * What [run_remote] does *)

Lemma init_logdirs_returns (l : loc) (w w' : World) (f : Flags) :
  heap w !! l = Some f → init_logdirs l w = (Ret tt, w') →
  heap w' = <[l := with_paths f]> (heap w) ∧
  ∃ evs, events w' = events w ++ evs ∧ started evs = [].
Proof.
  intros Hl Hrun.
  destruct (init_logdirs_spec l w f Hl) as (ok & m' & evs & Hd & E).
  rewrite Hrun in E. apply dirs_run_started in Hd.
  destruct ok; [destruct (negb (is_train f))|]; try done.
  - destruct (fs_exists _ _); [|done]. injection E as ->. split; [done|].
    eexists. split; [done|]. by rewrite started_app, Hd.
  - injection E as ->. eauto.
Qed.

Section Steps2.
Context {B : Type}.
Variable env : Env.

Lemma run_start p l (k : unit → M B) w f :
  heap w !! l = Some f → bind (start p l) k w = k tt (emit (EvStart p f) w).
Proof. intros H. unfold start, get_flags, bind. by rewrite H. Qed.

Lemma run_join p (k : unit → M B) w :
  bind (join env p) k w =
    let w1 := emit (EvJoin p) w in
    if child_exits env (events w1) (fs w1)
    then k tt (with_fs (child_fs env (events w1) (fs w1)) w1)
    else (Blocked, w1).
Proof. unfold bind, join. simpl. by destruct (child_exits _ _ _). Qed.

Lemma run_kill p (k : unit → M B) w :
  bind (kill env p) k w =
    let w1 := emit (EvKill p) w in
    k tt (with_fs (child_fs env (events w1) (fs w1)) w1).
Proof. reflexivity. Qed.

Lemma run_remove_pass path (k : unit → M B) w :
  bind (except_OSError_pass (os_remove path)) k w =
    k tt (with_fs (default (fs w) (fs_remove path (fs w)))
                  (emit (EvRemove path) w)).
Proof.
  unfold bind, except_OSError_pass, os_remove.
  destruct (fs_remove path (fs w)); simpl; [done|].
  by destruct w.
Qed.

Lemma run_deepcopy l (k : loc → M B) w f :
  heap w !! l = Some f →
  bind (copy_deepcopy l) k w
  = k (length (heap w)) (with_heap (heap w ++ [f]) w).
Proof. intros H. unfold copy_deepcopy, get_flags, bind. by rewrite H. Qed.
End Steps2.

Ltac step2 env :=
  first
    [ step
    | erewrite (run_start) by heap_side
    | rewrite (run_join env)
    | rewrite (run_kill env)
    | rewrite run_remove_pass
    | erewrite run_deepcopy by heap_side ];
  unfold with_heap, with_fs, emit;
  cbn [heap fs events mode base_logdir logdir savedir
       checkpoint traced_model address disable_cuda cc_env_mode
       set_mode set_logdir set_savedir set_checkpoint set_traced_model
       set_address set_disable_cuda set_cc_env_mode fst snd];
  rewrite ?insert_twice.

Section Remote.
Variable env : Env.

Lemma run_remote_run (l : loc) (train : bool) (w w2 : World) (f : Flags) :
  heap w !! l = Some f →
  let f1 := set_mode (remote_mode train) f in
  init_logdirs l (with_heap (<[l := f1]> (heap w)) w) = (Ret tt, w2) →
  let g := remote_flags train (with_paths f1) in
  let m3 := socket_cleared (fs w2) in
  let evs := events w2 ++
    [EvRemove rl_server_path;
     EvLog ("Starting " +:+ remote_mode train +:+ ", logdir=" +:+ logdir_of f1);
     EvStart Polybeast g; EvStart PantheonEnv g; EvJoin (driver train)] in
  run_remote env l train w =
    if child_exits env evs m3 then
      let evs' := evs ++ [EvKill (follower train)] in
      (Ret tt,
       mkWorld (<[l := g]> (heap w)) (child_fs env evs' (child_fs env evs m3))
               (evs' ++ [EvLog ("Done " +:+ remote_mode train)]))
    else (Blocked, mkWorld (<[l := g]> (heap w)) m3 evs).
Proof.
  intros Hl f1 Hinit g m3 evs.
  assert (heap (with_heap (<[l:=f1]> (heap w)) w) !! l = Some f1) as Hl1
    by (by eapply lookup_inserted).
  destruct (init_logdirs_returns _ _ _ _ Hl1 Hinit) as [Hh _].
  cbn [with_heap heap] in Hh. rewrite insert_twice in Hh.
  assert (heap w2 !! l = Some (with_paths f1)) as Hl2
    by (rewrite Hh; by eapply lookup_inserted).
  unfold run_remote. fold (remote_mode train).
  erewrite run_setattr by done. fold f1.
  erewrite run_returned by exact Hinit.
  destruct w2 as [h2 m2 e2]. cbn [heap fs events] in *. subst h2.
  repeat step2 env.
  subst evs m3 g. unfold remote_flags, socket_cleared, driver, follower.
  assert (mode (with_paths f1) = remote_mode train) as -> by done.
  destruct train; repeat step2 env; cbn zeta;
    unfold with_fs, emit; cbn [heap fs events];
    rewrite <- ?app_assoc; cbn [app];
    (destruct (child_exits env _ _); [|reflexivity]);
    repeat step2 env; unfold logging_info, emit; cbn [heap fs events];
    rewrite <- ?app_assoc; reflexivity.
Qed.
End Remote.

(** * What the callers of [init_logdirs] do with the processes *)

(** [init_logdirs] returns, or raises; it never blocks.  Either way the
    flags keep their mode and base directory and carry the two directory
    paths. *)
Lemma init_logdirs_outcome (l : loc) (w : World) (f : Flags) :
  heap w !! l = Some f →
  ∃ g evs,
    heap (init_logdirs l w).2 = <[l := g]> (heap w) ∧
    mode g = mode f ∧ base_logdir g = base_logdir f ∧
    logdir g = Some (logdir_of f) ∧ savedir g = Some (savedir_of f) ∧
    cc_env_mode g = cc_env_mode f ∧
    events (init_logdirs l w).2 = events w ++ evs ∧ started evs = [] ∧
    ((init_logdirs l w).1 = Ret tt ∧ g = with_paths f ∨
     ∃ e, (init_logdirs l w).1 = Raise e).
Proof.
  intros Hl.
  destruct (init_logdirs_spec l w f Hl) as (ok & m' & evs & Hd & ->).
  apply dirs_run_started in Hd.
  destruct ok; [destruct (negb (is_train f))|]; cbn [fst snd heap events].
  - exists (with_paths f), (evs ++ [EvExists (checkpoint_of f)]).
    split_and!; try done. { by rewrite started_app, Hd. }
    destruct (fs_exists _ _); eauto.
  - exists (with_paths f), evs. split_and!; try done. eauto.
  - exists (with_logdirs f), evs. split_and!; try done. eauto.
Qed.

(** What [init_logdirs] appends to the trace starts no process. *)
Lemma init_logdirs_events (l : loc) (w w2 : World) (f : Flags) (o : outcome unit) :
  heap w !! l = Some f →
  init_logdirs l w = (o, w2) →
  ∃ evs, events w2 = events w ++ evs ∧ started evs = [].
Proof.
  intros Hl Hinit.
  destruct (init_logdirs_outcome l w f Hl)
    as (g & evs & _ & _ & _ & _ & _ & _ & Hev & Hst & _).
  rewrite Hinit in Hev. eauto.
Qed.

Lemma socket_cleared_lookup (m : FileSys) (q : list string) :
  socket_cleared m !! q =
    if decide (q = ["tmp"; "rl_server_path"]) then
      match m !! q with Some File => None | o => o end
    else m !! q.
Proof.
  unfold socket_cleared, fs_remove.
  change (resolve rl_server_path) with (Some ["tmp"; "rl_server_path"]).
  cbn [node_at].
  destruct (decide (q = _)) as [->|Hq].
  - destruct (m !! ["tmp"; "rl_server_path"]) as [[]|] eqn:E;
      cbn [default from_option id]; [by rewrite lookup_delete_eq|done..].
  - destruct (m !! ["tmp"; "rl_server_path"]) as [[]|] eqn:E;
      cbn [default from_option id]; [by rewrite lookup_delete_ne|done..].
Qed.

Section RemoteClaims.
Variable env : Env.

(** C7: once [init_logdirs] has returned, having started no process, the
    next thing [run_remote] does, in both modes, is remove
    "/tmp/rl_server_path", ignoring a failed removal: afterwards no file is at that path and the rest of the
    filesystem is as before.  Both processes are started after that, with
    the same flags, whose [address] is "unix:/tmp/rl_server_path". *)
Theorem run_remote_socket_before_start
    (l : loc) (train : bool) (w w2 : World) (f : Flags) :
  heap w !! l = Some f →
  init_logdirs l
    (with_heap (<[l := set_mode (remote_mode train) f]> (heap w)) w)
    = (Ret tt, w2) →
  let r := run_remote env l train w in
  let m3 := default (fs w2) (fs_remove "/tmp/rl_server_path" (fs w2)) in
  (∃ evs0, events w2 = events w ++ evs0 ∧ started evs0 = []) ∧
  (∃ msg g tail,
     events r.2 = events w2 ++
       [EvRemove "/tmp/rl_server_path"; EvLog msg;
        EvStart Polybeast g; EvStart PantheonEnv g] ++ tail ∧
     started tail = [] ∧
     address g = Some "unix:/tmp/rl_server_path" ∧
     (address <$> heap r.2 !! l) = Some (Some "unix:/tmp/rl_server_path") ∧
     r.1 = if child_exits env
                (events w2 ++
                   [EvRemove "/tmp/rl_server_path"; EvLog msg;
                    EvStart Polybeast g; EvStart PantheonEnv g;
                    EvJoin (if train then Polybeast else PantheonEnv)]) m3
           then Ret tt else Blocked) ∧
  m3 !! ["tmp"; "rl_server_path"] ≠ Some File ∧
  (∀ q, q ≠ ["tmp"; "rl_server_path"] → m3 !! q = fs w2 !! q).
Proof.
  intros Hl Hinit r m3. subst r.
  rewrite (run_remote_run env l train w w2 f Hl Hinit). cbn zeta.
  split; [|split; [|split]].
  - eapply (init_logdirs_events l _ w2 (set_mode (remote_mode train) f)) in Hinit;
      [done|]. cbn [with_heap heap]. by eapply lookup_inserted.
  - do 2 eexists.
    fold (driver train) (follower train) (remote_mode train).
    unfold socket_cleared, rl_server_path. fold m3.
    destruct (child_exits env _ _) eqn:Hx; eexists; cbn [fst snd events heap].
    + rewrite <- !app_assoc. cbn [app]. split_and!; [reflexivity|..]; try done.
      * by erewrite lookup_inserted.
      * unfold driver in *. by rewrite Hx.
    + split_and!; [reflexivity|..]; try done.
      * by erewrite lookup_inserted.
      * unfold driver in *. by rewrite Hx.
  - intros E. pose proof (socket_cleared_lookup (fs w2) ["tmp"; "rl_server_path"]) as H.
    unfold socket_cleared, rl_server_path in H. fold m3 in H.
    rewrite decide_True, E in H by done.
    by destruct (fs w2 !! ["tmp"; "rl_server_path"]) as [[]|].
  - intros q Hq. pose proof (socket_cleared_lookup (fs w2) q) as H.
    unfold socket_cleared, rl_server_path in H. fold m3 in H.
    by rewrite decide_False in H.
Qed.

(** C8: [run_remote] sets [disable_cuda] to [not train]: [True] in a
    remote test, [False] in training.  Both processes are started with
    flags that carry this value. *)
Theorem run_remote_disable_cuda
    (l : loc) (train : bool) (w w2 : World) (f : Flags) :
  heap w !! l = Some f →
  init_logdirs l
    (with_heap (<[l := set_mode (remote_mode train) f]> (heap w)) w)
    = (Ret tt, w2) →
  let r := run_remote env l train w in
  (disable_cuda <$> heap r.2 !! l) = Some (Some (negb train)) ∧
  (∀ p g, EvStart p g ∈ events r.2 → EvStart p g ∉ events w2 →
     disable_cuda g = Some (negb train)) ∧
  (train = false → disable_cuda <$> heap r.2 !! l = Some (Some true)) ∧
  (train = true → disable_cuda <$> heap r.2 !! l = Some (Some false)).
Proof.
  intros Hl Hinit r. subst r.
  rewrite (run_remote_run env l train w w2 f Hl Hinit). cbn zeta.
  set (g := remote_flags train (with_paths (set_mode (remote_mode train) f))).
  assert (disable_cuda g = Some (negb train)) as Hg by done.
  assert (∀ p g' tail, EvStart p g' ∈ events w2 ++ tail →
            EvStart p g' ∉ events w2 → EvStart p g' ∈ tail) as Hnew.
  { intros p g' tail [?|?]%elem_of_app ?; done. }
  destruct (child_exits env _ _); cbn [snd heap events];
    rewrite <- ?app_assoc; (split_and!;
      [ by erewrite lookup_inserted
      | intros p g' Hin Hnot; apply Hnew in Hin; [|done];
        apply list_elem_of_In in Hin; simpl in Hin;
        repeat (destruct Hin as [Hin|Hin]; try done);
        by injection Hin as <- <-
      | intros ->; by erewrite lookup_inserted
      | intros ->; by erewrite lookup_inserted ]).
Qed.

End RemoteClaims.


Section TraceRuns.
Variable env : Env.

Lemma trace_run (l : loc) (w w2 : World) (f : Flags) :
  heap w !! l = Some f →
  let f1 := set_mode "trace" f in
  init_logdirs l (with_heap (<[l := f1]> (heap w)) w) = (Ret tt, w2) →
  let evs := events w2 ++
    [EvLog ("Tracing model from checkpoint " +:+ checkpoint_of f1);
     EvStart Polybeast (with_paths f1); EvJoin Polybeast] in
  trace env l w =
    if child_exits env evs (fs w2) then
      (Ret tt,
       mkWorld (<[l := with_paths f1]> (heap w)) (child_fs env evs (fs w2))
               (evs ++ [EvLog ("Done tracing to " +:+ traced_model_of f1)]))
    else (Blocked, mkWorld (<[l := with_paths f1]> (heap w)) (fs w2) evs).
Proof.
  intros Hl f1 Hinit evs.
  assert (heap (with_heap (<[l:=f1]> (heap w)) w) !! l = Some f1) as Hl1
    by (by eapply lookup_inserted).
  destruct (init_logdirs_returns _ _ _ _ Hl1 Hinit) as [Hh _].
  cbn [with_heap heap] in Hh. rewrite insert_twice in Hh.
  assert (heap w2 !! l = Some (with_paths f1)) as Hl2
    by (rewrite Hh; by eapply lookup_inserted).
  unfold trace. erewrite run_setattr by done. fold f1.
  erewrite run_returned by exact Hinit.
  destruct w2 as [h2 m2 e2]. cbn [heap fs events] in *. subst h2 evs.
  repeat step2 env. cbn zeta. unfold with_fs, emit. cbn [heap fs events].
  rewrite <- ?app_assoc. cbn [app].
  destruct (child_exits env _ _); [|reflexivity].
  repeat step2 env. unfold logging_info, emit. cbn [heap fs events].
  rewrite <- ?app_assoc. reflexivity.
Qed.

Lemma trace_abort (l : loc) (w w2 : World) (f : Flags) (e : exn) :
  heap w !! l = Some f →
  init_logdirs l (with_heap (<[l := set_mode "trace" f]> (heap w)) w)
    = (Raise e, w2) →
  trace env l w = (Raise e, w2).
Proof.
  intros Hl Hinit. unfold trace. erewrite run_setattr by done.
  by apply run_raised.
Qed.

(** [trace] touches the one flags object it was given, and sets its mode. *)
Lemma trace_outcome (l : loc) (w : World) (f : Flags) :
  heap w !! l = Some f →
  ∃ g evs,
    heap (trace env l w).2 = <[l := g]> (heap w) ∧
    mode g = "trace" ∧ base_logdir g = base_logdir f ∧
    logdir g = Some (os_path_join (base_logdir f) "trace") ∧
    savedir g =
      Some (os_path_join (os_path_join (base_logdir f) "trace") "torchbeast") ∧
    events (trace env l w).2 = events w ++ evs ∧
    (started evs = [Polybeast] ∧
       ((trace env l w).1 = Ret tt ∨ (trace env l w).1 = Blocked) ∨
     started evs = [] ∧ ∃ e, (trace env l w).1 = Raise e).
Proof.
  intros Hl. set (f1 := set_mode "trace" f).
  set (w1 := with_heap (<[l := f1]> (heap w)) w).
  assert (heap w1 !! l = Some f1) as Hl1 by (by eapply lookup_inserted).
  destruct (init_logdirs_outcome l w1 f1 Hl1)
    as (g & evs & Hh & Hm & Hb & Hld & Hsd & _ & Hev & Hst & Hr).
  destruct (init_logdirs l w1) as [r w2] eqn:Hinit. cbn [fst snd] in *.
  unfold w1 in Hh, Hev, Hinit.
  cbn [with_heap heap events] in Hh, Hev. rewrite insert_twice in Hh.
  destruct Hr as [[-> ->]|[e ->]].
  - rewrite (trace_run l w w2 f Hl Hinit). cbn zeta.
    exists (with_paths f1).
    destruct (child_exits env _ _); cbn [fst snd heap events];
      rewrite Hev, <- !app_assoc; eexists; (split_and!; [done..|]);
      left; (split; [by rewrite started_app, Hst|]); auto.
  - rewrite (trace_abort l w w2 f e Hl Hinit). cbn [fst snd].
    exists g, evs. split_and!; try done. right. eauto.
Qed.

End TraceRuns.

(** * What [test_local] does *)

Section LocalRuns.
Variable env : Env.
Variables (l : loc) (w w2 : World) (f : Flags).
Hypothesis Hl : heap w !! l = Some f.
Hypothesis Hinit :
  init_logdirs l (with_heap (<[l := set_mode "test" f]> (heap w)) w)
    = (Ret tt, w2).

Lemma test_local_heap2 :
  heap w2 = <[l := with_paths (set_mode "test" f)]> (heap w).
Proof.
  assert (heap (with_heap (<[l:=set_mode "test" f]> (heap w)) w) !! l
          = Some (set_mode "test" f)) as Hl1
    by (by eapply lookup_inserted).
  destruct (init_logdirs_returns _ _ _ _ Hl1 Hinit) as [Hh _].
  cbn [with_heap heap] in Hh. by rewrite insert_twice in Hh.
Qed.

Lemma test_local_lookup2 :
  heap w2 !! l = Some (with_paths (set_mode "test" f)).
Proof. rewrite test_local_heap2. by eapply lookup_inserted. Qed.

Lemma local_test_tail_run (w4 : World) :
  heap w4 !! l = Some (with_paths (set_mode "test" f)) →
  (setattr l (set_cc_env_mode "local") >>
   let* ld := getattr_opt l logdir "logdir" in
   logging_info ("Starting local test, logdir=" +:+ ld) >>
   start PantheonEnv l >>
   join env PantheonEnv >>
   logging_info "Done local test") w4 = local_test_tail env l f w4.
Proof.
  intros H4. unfold local_test_tail, local_flags. destruct w4 as [h4 m4 e4].
  cbn [heap fs events] in *.
  repeat step2 env. cbn zeta. unfold with_fs, emit. cbn [heap fs events].
  rewrite <- ?app_assoc. cbn [app].
  destruct (child_exits env _ _); [|reflexivity].
  unfold logging_info, emit. cbn [heap fs events].
  rewrite <- ?app_assoc. reflexivity.
Qed.

Lemma test_local_traced :
  fs_exists (traced_model_of f) (fs w2) = true →
  test_local env l w
  = local_test_tail env l f
      (mkWorld (heap w2) (fs w2) (events w2 ++ [EvExists (traced_model_of f)])).
Proof.
  intros Htm. pose proof test_local_lookup2 as Hl2.
  unfold test_local. erewrite run_setattr by done.
  erewrite run_returned by exact Hinit.
  destruct w2 as [h2 m2 e2]. cbn [heap fs events] in *.
  do 2 step2 env.
  change (traced_model_of (set_mode "test" f)) with (traced_model_of f).
  rewrite Htm. cbn [negb].
  rewrite run_ret. by apply local_test_tail_run.
Qed.

Lemma copy_world_lookup :
  l < length (heap w2) ∧
  heap (copy_world f w2) !! l = Some (with_paths (set_mode "test" f)) ∧
  heap (copy_world f w2) !! length (heap w2)
    = Some (with_paths (set_mode "test" f)).
Proof.
  pose proof test_local_lookup2 as Hl2.
  assert (l < length (heap w2)) as Hlt by (by eapply lookup_lt_Some).
  split; [done|]. unfold copy_world. cbn [heap]. split.
  - by rewrite lookup_app_l.
  - rewrite lookup_app_r by done. by rewrite Nat.sub_diag.
Qed.

Lemma trace_copy_frame :
  heap (trace env (length (heap w2)) (copy_world f w2)).2 !! l
  = Some (with_paths (set_mode "test" f)).
Proof.
  destruct copy_world_lookup as (Hlt & Hcl & Hcc).
  destruct (trace_outcome env _ _ _ Hcc) as (c & evs & -> & _).
  rewrite list_lookup_insert_ne by lia. done.
Qed.

Lemma test_local_untraced :
  fs_exists (traced_model_of f) (fs w2) = false →
  test_local env l w =
    match trace env (length (heap w2)) (copy_world f w2) with
    | (Ret _, w4) => local_test_tail env l f w4
    | (Raise e, w4) => (Raise e, w4)
    | (Blocked, w4) => (Blocked, w4)
    end.
Proof.
  intros Htm. pose proof test_local_lookup2 as Hl2.
  pose proof trace_copy_frame as Hfr.
  unfold test_local. erewrite run_setattr by done.
  erewrite run_returned by exact Hinit.
  unfold copy_world in *.
  destruct w2 as [h2 m2 e2]. cbn [heap fs events] in *.
  do 2 step2 env.
  change (traced_model_of (set_mode "test" f)) with (traced_model_of f).
  rewrite Htm. cbn [negb].
  do 4 step2 env. rewrite <- app_assoc. cbn [app].
  destruct (trace env (length h2) _) as [[[]|e|] w4] eqn:Ht.
  - erewrite run_returned by exact Ht.
    by apply local_test_tail_run.
  - by erewrite run_raised by exact Ht.
  - by erewrite run_blocked by exact Ht.
Qed.

End LocalRuns.

Lemma started_by_app {A} (m : M A) (w : World) (evs : list event) :
  events (m w).2 = events w ++ evs → started_by m w = started evs.
Proof. intros E. unfold started_by. by rewrite E, drop_app_length. Qed.

Lemma started_elem (p : proc) (g : Flags) (evs : list event) :
  EvStart p g ∈ evs → p ∈ started evs.
Proof.
  intros H. unfold started. apply list_elem_of_omap.
  exists (EvStart p g). done.
Qed.

Section CopyClaim.
Variable env : Env.

(** C9: when [test_local] finds no traced model, [trace] runs on a copy
    of the flags: a new object whose attributes are those of the caller's
    flags at that time.  [trace] sets the mode, the log directory and the
    save directory of the copy and leaves the caller's flags as they were.
    When [trace] returns, the local test goes on with the caller's flags:
    mode "test", the directories of the test, and [cc_env_mode] set to
    "local".  When [trace] does not return, [test_local] ends as [trace]
    did. *)
Theorem test_local_traces_a_copy (l : loc) (w w2 : World) (f : Flags) :
  heap w !! l = Some f →
  init_logdirs l (with_heap (<[l := set_mode "test" f]> (heap w)) w)
    = (Ret tt, w2) →
  fs_exists (traced_model_of f) (fs w2) = false →
  let c := length (heap w2) in
  let t := trace env c (copy_world f w2) in
  let r := test_local env l w in
  let mine := with_paths (set_mode "test" f) in
  (c ≠ l ∧
   heap (copy_world f w2) !! c = Some mine ∧
   heap (copy_world f w2) !! l = Some mine) ∧
  (heap t.2 !! l = Some mine ∧
   ∃ fc, heap t.2 !! c = Some fc ∧ mode fc = "trace" ∧
     logdir fc = Some (os_path_join (base_logdir f) "trace") ∧
     savedir fc =
       Some (os_path_join (os_path_join (base_logdir f) "trace")
               "torchbeast")) ∧
  (mode (local_flags f) = "test" ∧
   cc_env_mode (local_flags f) = Some "local" ∧
   logdir (local_flags f) = Some (os_path_join (base_logdir f) "test") ∧
   savedir (local_flags f) =
     Some (os_path_join (os_path_join (base_logdir f) "test") "torchbeast")) ∧
  (t.1 = Ret tt →
     heap r.2 !! l = Some (local_flags f) ∧
     ∃ msg tail,
       events r.2 =
         events t.2 ++ [EvLog msg; EvStart PantheonEnv (local_flags f)] ++ tail) ∧
  (t.1 ≠ Ret tt → r = t) ∧
  (∀ g, EvStart PantheonEnv g ∈ events r.2 →
        EvStart PantheonEnv g ∉ events w2 → g = local_flags f).
Proof.
  intros Hl Hinit Htm c t r mine.
  destruct (copy_world_lookup l w w2 f Hl Hinit) as (Hlt & Hcl & Hcc).
  pose proof (trace_copy_frame env l w w2 f Hl Hinit) as Hfr.
  pose proof (test_local_untraced env l w w2 f Hl Hinit Htm) as Hr.
  destruct (trace_outcome env _ _ _ Hcc)
    as (fc & evs & Hh & Hm & Hb & Hld & Hsd & Hev & Hst).
  fold c t in Hfr, Hr, Hh, Hev, Hst. fold r in Hr.
  assert (∀ g, EvStart PantheonEnv g ∈ events t.2 →
               EvStart PantheonEnv g ∈ events w2) as Hno.
  { intros g. rewrite Hev. unfold copy_world. cbn [events].
    rewrite !elem_of_app, !elem_of_cons, elem_of_nil.
    intros [[?|[?|[?|?]]]|Hin]; try done.
    apply started_elem in Hin.
    destruct Hst as [[E _]|[E _]]; rewrite E in Hin;
      [|by apply elem_of_nil in Hin].
    by apply list_elem_of_singleton in Hin. }
  split_and!; try done.
  - unfold c. lia.
  - exists fc. rewrite Hh. split_and!; try done.
    apply list_lookup_insert_eq. unfold copy_world. cbn [heap].
    rewrite length_app. cbn. unfold c. lia.
  - intros Ht. destruct t as [[[]| |] w4]; try done. cbn [fst snd] in *.
    rewrite Hr. unfold local_test_tail.
    destruct (child_exits env _ _); cbn [snd heap events]; (split;
      [ apply list_lookup_insert_eq; by eapply lookup_lt_Some
      | do 2 eexists; rewrite <- ?app_assoc; cbn [app]; reflexivity ]).
  - intros Ht. destruct t as [[[]| |] w4]; done.
  - intros g Hin Hnot. specialize (Hno g).
    destruct t as [[[]|e|] w4]; cbn [fst snd] in *;
      try (rewrite Hr in Hin; tauto).
    rewrite Hr in Hin. unfold local_test_tail in Hin.
    destruct (child_exits env _ _); cbn [snd events] in Hin;
      rewrite ?elem_of_app, ?elem_of_cons, ?elem_of_nil in Hin;
      intuition (try discriminate); congruence.
Qed.

End CopyClaim.

(** * How many processes are started *)


Section Counting.
Variable env : Env.
Variables (l : loc) (w : World) (f : Flags).
Hypothesis Hl : heap w !! l = Some f.

Lemma entered_events (md : string) (o : outcome unit) (w2 : World) :
  init_logdirs l (with_heap (<[l := set_mode md f]> (heap w)) w) = (o, w2) →
  ∃ evs, events w2 = events w ++ evs ∧ started evs = [].
Proof.
  intros Hinit.
  eapply (init_logdirs_events l _ w2 (set_mode md f)) in Hinit; [done|].
  cbn [with_heap heap]. by eapply lookup_inserted.
Qed.

Lemma run_remote_started (train : bool) (w2 : World) :
  init_logdirs l
    (with_heap (<[l := set_mode (remote_mode train) f]> (heap w)) w)
    = (Ret tt, w2) →
  started_by (run_remote env l train) w = [Polybeast; PantheonEnv].
Proof.
  intros Hinit. destruct (entered_events _ _ _ Hinit) as (evs & Hev & Hst).
  unfold started_by.
  rewrite (run_remote_run env l train w w2 f Hl Hinit). cbn zeta.
  destruct (child_exits env _ _); cbn [snd events];
    rewrite Hev, <- !app_assoc, drop_app_length, started_app, Hst;
    by destruct train.
Qed.

Lemma run_remote_abort (train : bool) (w2 : World) (e : exn) :
  init_logdirs l
    (with_heap (<[l := set_mode (remote_mode train) f]> (heap w)) w)
    = (Raise e, w2) →
  run_remote env l train w = (Raise e, w2).
Proof.
  intros Hinit. unfold run_remote. erewrite run_setattr by done.
  by apply run_raised.
Qed.

Lemma trace_started (w2 : World) :
  init_logdirs l (with_heap (<[l := set_mode "trace" f]> (heap w)) w)
    = (Ret tt, w2) →
  started_by (trace env l) w = [Polybeast].
Proof.
  intros Hinit. destruct (entered_events _ _ _ Hinit) as (evs & Hev & Hst).
  unfold started_by.
  rewrite (trace_run env l w w2 f Hl Hinit). cbn zeta.
  destruct (child_exits env _ _); cbn [snd events];
    by rewrite Hev, <- !app_assoc, drop_app_length, started_app, Hst.
Qed.

Lemma local_test_tail_events (w4 : World) :
  ∃ tail, events (local_test_tail env l f w4).2 = events w4 ++ tail ∧
          started tail = [PantheonEnv].
Proof.
  unfold local_test_tail.
  destruct (child_exits env _ _); cbn [snd events]; rewrite <- ?app_assoc;
    eexists; (split; [reflexivity|done]).
Qed.

Lemma test_local_started_traced (w2 : World) :
  init_logdirs l (with_heap (<[l := set_mode "test" f]> (heap w)) w)
    = (Ret tt, w2) →
  fs_exists (traced_model_of f) (fs w2) = true →
  started_by (test_local env l) w = [PantheonEnv].
Proof.
  intros Hinit Htm.
  destruct (entered_events _ _ _ Hinit) as (evs & Hev & Hst).
  destruct (local_test_tail_events
              (mkWorld (heap w2) (fs w2)
                 (events w2 ++ [EvExists (traced_model_of f)])))
    as (tail & Ht & Hs).
  rewrite (started_by_app _ _ (evs ++ [EvExists (traced_model_of f)] ++ tail)).
  - by rewrite !started_app, Hst, Hs.
  - rewrite (test_local_traced env l w w2 f Hl Hinit Htm), Ht.
    cbn [events]. by rewrite Hev, <- !app_assoc.
Qed.

Lemma test_local_started_untraced (w2 : World) :
  init_logdirs l (with_heap (<[l := set_mode "test" f]> (heap w)) w)
    = (Ret tt, w2) →
  fs_exists (traced_model_of f) (fs w2) = false →
  let t := trace env (length (heap w2)) (copy_world f w2) in
  started_by (test_local env l) w =
    match t.1 with
    | Ret _ => [Polybeast; PantheonEnv]
    | Blocked => [Polybeast]
    | Raise _ => []
    end.
Proof.
  intros Hinit Htm t.
  destruct (entered_events _ _ _ Hinit) as (evs & Hev & Hst).
  destruct (copy_world_lookup l w w2 f Hl Hinit) as (_ & _ & Hcc).
  destruct (trace_outcome env _ _ _ Hcc)
    as (fc & evs' & _ & _ & _ & _ & _ & Hev' & Hst').
  fold t in Hev', Hst'.
  pose proof (test_local_untraced env l w w2 f Hl Hinit Htm) as Hr.
  fold t in Hr. unfold started_by. rewrite Hr.
  destruct t as [[[]|e|] w4]; cbn [fst snd] in *.
  - destruct Hst' as [[Hp _]|[_ [e ?]]]; [|done].
    destruct (local_test_tail_events w4) as (tail & -> & Hs).
    rewrite Hev'. unfold copy_world. cbn [events].
    rewrite Hev, <- !app_assoc, drop_app_length, !started_app, Hst, Hp, Hs.
    done.
  - destruct Hst' as [[_ [?|?]]|[Hp _]]; [done..|].
    rewrite Hev'. unfold copy_world. cbn [events].
    by rewrite Hev, <- !app_assoc, drop_app_length, !started_app, Hst, Hp.
  - destruct Hst' as [[Hp _]|[_ [e ?]]]; [|done].
    rewrite Hev'. unfold copy_world. cbn [events].
    by rewrite Hev, <- !app_assoc, drop_app_length, !started_app, Hst, Hp.
Qed.

Lemma test_local_abort (w2 : World) (e : exn) :
  init_logdirs l (with_heap (<[l := set_mode "test" f]> (heap w)) w)
    = (Raise e, w2) →
  test_local env l w = (Raise e, w2).
Proof.
  intros Hinit. unfold test_local. erewrite run_setattr by done.
  by apply run_raised.
Qed.

End Counting.

Section CountClaim.
Variable env : Env.

(** C5, function by function: whenever [init_logdirs] returns,
    [run_remote] starts two processes, [polybeast] then [pantheon_env], and
    [trace] starts [polybeast] alone.  [test_local] starts [pantheon_env]
    alone when the traced model exists; when it is missing, [polybeast] is
    started first, by the nested [trace], and [pantheon_env] after it (only
    [polybeast] when the nested [trace] blocks, nothing when it fails).
    When [init_logdirs] fails nothing is started.  No function starts more
    than two processes, and [trace] no more than one. *)
Theorem processes_started_per_function (l : loc) (w : World) (f : Flags) :
  heap w !! l = Some f →
  let entered md :=
    init_logdirs l (with_heap (<[l := set_mode md f]> (heap w)) w) in
  (∀ train, (entered (remote_mode train)).1 = Ret tt →
     started_by (run_remote env l train) w = [Polybeast; PantheonEnv]) ∧
  ((entered "trace").1 = Ret tt →
     started_by (trace env l) w = [Polybeast]) ∧
  ((entered "test").1 = Ret tt →
     let w2 := (entered "test").2 in
     let t := trace env (length (heap w2)) (copy_world f w2) in
     (fs_exists (traced_model_of f) (fs w2) = true →
        started_by (test_local env l) w = [PantheonEnv]) ∧
     (fs_exists (traced_model_of f) (fs w2) = false →
        (t.1 = Ret tt →
           started_by (test_local env l) w = [Polybeast; PantheonEnv]) ∧
        (t.1 = Blocked → started_by (test_local env l) w = [Polybeast]) ∧
        (∀ e, t.1 = Raise e → started_by (test_local env l) w = []))) ∧
  (∀ train, (entered (remote_mode train)).1 ≠ Ret tt →
     started_by (run_remote env l train) w = []) ∧
  ((entered "trace").1 ≠ Ret tt → started_by (trace env l) w = []) ∧
  ((entered "test").1 ≠ Ret tt → started_by (test_local env l) w = []) ∧
  (∀ train, (length (started_by (run_remote env l train) w) ≤ 2)%nat) ∧
  (length (started_by (trace env l) w) ≤ 1)%nat ∧
  (length (started_by (test_local env l) w) ≤ 2)%nat.
Proof.
  intros Hl entered.
  assert (∀ md, heap (with_heap (<[l := set_mode md f]> (heap w)) w) !! l
                = Some (set_mode md f)) as Hl1
    by (intros md; by eapply lookup_inserted).
  assert (∀ md, (entered md).1 = Ret tt →
                entered md = (Ret tt, (entered md).2)) as Hret.
  { intros md E. destruct (entered md) as [o w2]. cbn in E. by subst. }
  assert (∀ md, (entered md).1 ≠ Ret tt →
                ∃ e evs, entered md = (Raise e, (entered md).2) ∧
                  events (entered md).2 = events w ++ evs ∧ started evs = [])
    as Hraise.
  { intros md E.
    destruct (init_logdirs_outcome l _ _ (Hl1 md))
      as (g & evs & _ & _ & _ & _ & _ & _ & Hev & Hst & Hr).
    fold (entered md) in Hev, Hr.
    destruct Hr as [[? _]|[e He]]; [done|]. exists e, evs.
    split_and!; try done.
    destruct (entered md) as [o w2]. cbn in He. by subst. }
  assert (∀ train, (entered (remote_mode train)).1 ≠ Ret tt →
     started_by (run_remote env l train) w = []) as Hrr.
  { intros train (e & evs & E & Hev & Hst)%Hraise.
    rewrite (started_by_app _ _ evs); [done|].
    by rewrite (run_remote_abort env l w f Hl train _ e E). }
  assert ((entered "trace").1 ≠ Ret tt → started_by (trace env l) w = [])
    as Htr.
  { intros (e & evs & E & Hev & Hst)%Hraise.
    rewrite (started_by_app _ _ evs); [done|].
    by rewrite (trace_abort env l w _ f e Hl E). }
  assert ((entered "test").1 ≠ Ret tt → started_by (test_local env l) w = [])
    as Htl.
  { intros (e & evs & E & Hev & Hst)%Hraise.
    rewrite (started_by_app _ _ evs); [done|].
    by rewrite (test_local_abort env l w f Hl _ e E). }
  assert (∀ o : outcome unit, o = Ret tt ∨ o ≠ Ret tt) as Hdec.
  { intros [[]|e|]; auto. }
  split_and!; try done.
  - intros train E%Hret. by eapply run_remote_started.
  - intros E%Hret. by eapply trace_started.
  - intros E%Hret w2 t. split.
    + intros Htm. by eapply test_local_started_traced.
    + intros Htm.
      pose proof (test_local_started_untraced env l w f Hl w2 E Htm) as Hs.
      cbn zeta in Hs. fold t in Hs. rewrite Hs.
      split_and!; [by intros ->..|]. by intros e ->.
  - intros train. destruct (Hdec (entered (remote_mode train)).1) as [E|E].
    + apply Hret in E. by erewrite run_remote_started.
    + rewrite Hrr by done. cbn. lia.
  - destruct (Hdec (entered "trace").1) as [E|E].
    + apply Hret in E. by erewrite trace_started.
    + rewrite Htr by done. cbn. lia.
  - destruct (Hdec (entered "test").1) as [E|E].
    + apply Hret in E.
      destruct (fs_exists (traced_model_of f) (fs (entered "test").2)) eqn:Htm.
      * erewrite test_local_started_traced by done. cbn. lia.
      * erewrite test_local_started_untraced by done. cbn zeta.
        destruct (trace _ _ _).1; cbn; lia.
    + rewrite Htl by done. cbn. lia.
Qed.

End CountClaim.

(** A local test on the example installation, which has a checkpoint and
    no traced model, starts two processes and returns. *)
Lemma test_local_starts_two :
  (test_local quiet 0 (example_world "test_local")).1 = Ret tt ∧
  started_by (test_local quiet 0) (example_world "test_local")
    = [Polybeast; PantheonEnv] ∧
  started_by (test_local quiet 0) (example_world "test_local")
    ≠ [PantheonEnv].
Proof. split; [|split]; vm_compute; [reflexivity..|discriminate]. Qed.

(** * The dispatch in [main] *)

Lemma known_modes_eqb (s : string) :
  s ∉ known_modes →
  String.eqb s "train" = false ∧ String.eqb s "test" = false ∧
  String.eqb s "test_local" = false ∧ String.eqb s "trace" = false.
Proof.
  intros H. unfold known_modes in H.
  rewrite !not_elem_of_cons in H. destruct H as (?&?&?&?&_).
  by rewrite !String.eqb_neq.
Qed.

Section Dispatch.
Variable env : Env.

(** C2: after logging the mode, [main] runs the one branch its mode
    selects: "train" the remote training, the trace and the remote test;
    "test" the remote test; "test_local" the local test; "trace" the trace;
    each followed by the closing log.  The four mode names are pairwise
    distinct, so one branch is taken.  Any other mode raises [RuntimeError]
    right after the first log: no process is started, and the flags and
    the filesystem are untouched. *)
Theorem main_dispatch_total (l : loc) (w : World) (f : Flags) :
  heap w !! l = Some f →
  let w1 := emit (EvLog ("Mode=" +:+ mode f)) w in
  (mode f = "train" →
     main env l w =
       ((run_remote env l true >> trace env l >> run_remote env l false) >>
        closing_log l) w1) ∧
  (mode f = "test" →
     main env l w = (run_remote env l false >> closing_log l) w1) ∧
  (mode f = "test_local" →
     main env l w = (test_local env l >> closing_log l) w1) ∧
  (mode f = "trace" →
     main env l w = (trace env l >> closing_log l) w1) ∧
  (mode f ∉ known_modes →
     main env l w = (Raise (RuntimeError ("Unknown mode " +:+ mode f)), w1) ∧
     started_by (main env l) w = [] ∧
     heap (main env l w).2 = heap w ∧ fs (main env l w).2 = fs w) ∧
  (mode f ∈ known_modes ∨ mode f ∉ known_modes) ∧
  NoDup known_modes.
Proof.
  intros Hl w1.
  assert (main env l w =
    ((if String.eqb (mode f) "train" then
        run_remote env l true >> trace env l >> run_remote env l false
      else if String.eqb (mode f) "test" then run_remote env l false
      else if String.eqb (mode f) "test_local" then test_local env l
      else if String.eqb (mode f) "trace" then trace env l
      else raise (RuntimeError ("Unknown mode " +:+ mode f))) >>
     closing_log l) w1) as Hmain.
  { unfold main. erewrite run_getattr by done. by rewrite run_logging_info. }
  split_and!.
  - intros E. by rewrite Hmain, E.
  - intros E. by rewrite Hmain, E.
  - intros E. by rewrite Hmain, E.
  - intros E. by rewrite Hmain, E.
  - intros (E1 & E2 & E3 & E4)%known_modes_eqb.
    assert (main env l w
            = (Raise (RuntimeError ("Unknown mode " +:+ mode f)), w1)) as E.
    { by rewrite Hmain, E1, E2, E3, E4, run_raise. }
    split_and!; [done|..]; rewrite ?E; try done.
    rewrite (started_by_app _ _ [EvLog ("Mode=" +:+ mode f)]); [done|].
    by rewrite E.
  - destruct (decide (mode f ∈ known_modes)); auto.
  - unfold known_modes. repeat (apply NoDup_cons; split;
      [rewrite ?not_elem_of_cons, ?elem_of_nil; intuition discriminate|]).
    apply NoDup_nil_2.
Qed.

End Dispatch.

(** * The example installation *)

Lemma fs_wf_check_sound (m : FileSys) : fs_wf_check m = true → fs_wf m.
Proof.
  unfold fs_wf_check. intros [H0 Hall]%andb_true_iff.
  apply bool_decide_eq_true in H0. split; [done|].
  intros q c n Hq. rewrite forallb_forall in Hall.
  specialize (Hall (q ++ [c], n)). cbn [fst] in Hall.
  rewrite removelast_last in Hall.
  destruct (q ++ [c]) eqn:E; [by destruct q|]. rewrite <- E in *.
  eapply bool_decide_eq_true_1, Hall, list_elem_of_In.
  by apply elem_of_map_to_list.
Qed.

Lemma example_fs_wf : fs_wf example_fs.
Proof. apply fs_wf_check_sound. vm_compute. reflexivity. Qed.

Lemma bare_fs_wf : fs_wf bare_fs.
Proof. apply fs_wf_check_sound. vm_compute. reflexivity. Qed.

(** On the example installation: the paths of a test run in [logs]. *)
Lemma init_logdirs_derives_paths_example :
  heap (example_world "test") !! 0 = Some (example_flags "test") ∧
  ∃ f', heap (init_logdirs 0 (example_world "test")).2 !! 0 = Some f' ∧
    logdir f' = Some "logs/test" ∧
    savedir f' = Some "logs/test/torchbeast" ∧
    checkpoint f' = Some "logs/checkpoint.tar" ∧
    traced_model f' = Some "logs/traced_model.pt".
Proof.
  split; [reflexivity|].
  destruct (init_logdirs_derives_paths 0 (example_world "test")
              (example_flags "test") eq_refl)
    as (f' & H1 & _ & _ & H2 & H3 & H4 & _).
  exists f'. destruct H4 as [H4 H5].
  { vm_compute. discriminate. }
  repeat split; assumption.
Defined.

(** On the installation that lacks the checkpoint: a test run aborts,
    after the old log is gone and the directories are made. *)
Lemma init_logdirs_abort_not_atomic_example :
  let w := bare_world "test" in
  let msg := "Checkpoint logs/checkpoint.tar missing in test mode" in
  heap w !! 0 = Some (example_flags "test") ∧
  fs_wf (fs w) ∧
  plain_path "logs/test" = true ∧
  init_logdirs 0 w = (Raise (AssertionError msg), (init_logdirs 0 w).2) ∧
  fs_exists "logs/checkpoint.tar" (fs (init_logdirs 0 w).2) = false ∧
  fs w !! ["logs"; "test"; "torchbeast"] = None ∧
  fs (init_logdirs 0 w).2 !! ["logs"; "test"; "torchbeast"] = Some Dir.
Proof.
  intros w msg.
  assert (init_logdirs 0 w = (Raise (AssertionError msg), (init_logdirs 0 w).2))
    as E by (vm_compute; reflexivity).
  split; [reflexivity|]. split; [exact bare_fs_wf|].
  split; [reflexivity|]. split; [exact E|].
  destruct (init_logdirs_abort_not_atomic quiet 0 w _ (example_flags "test")
              msg eq_refl bare_fs_wf eq_refl E)
    as (_ & Hck & _ & (pl & Hp & _ & Hsd & _) & _).
  injection Hp as <-.
  split; [exact Hck|]. split; [reflexivity|exact Hsd].
Defined.

(** On the example installation: the address of a remote test run. *)
Lemma run_remote_socket_before_start_example :
  let f := example_flags "test" in
  let w := example_world "test" in
  let w1 := with_heap (<[0 := set_mode "test" f]> (heap w)) w in
  heap w !! 0 = Some f ∧
  init_logdirs 0 w1 = (Ret tt, (init_logdirs 0 w1).2) ∧
  address <$> heap (run_remote quiet 0 false w).2 !! 0
    = Some (Some "unix:/tmp/rl_server_path").
Proof.
  intros f w w1.
  assert (init_logdirs 0 w1 = (Ret tt, (init_logdirs 0 w1).2)) as E
    by (vm_compute; reflexivity).
  split; [reflexivity|]. split; [exact E|].
  destruct (run_remote_socket_before_start quiet 0 false w _ f eq_refl E)
    as (_ & (msg & g & tail & _ & _ & _ & H & _) & _).
  exact H.
Defined.

(** On the example installation: a remote test run has CUDA disabled. *)
Lemma run_remote_disable_cuda_example :
  let f := example_flags "test" in
  let w := example_world "test" in
  let w1 := with_heap (<[0 := set_mode "test" f]> (heap w)) w in
  heap w !! 0 = Some f ∧
  init_logdirs 0 w1 = (Ret tt, (init_logdirs 0 w1).2) ∧
  disable_cuda <$> heap (run_remote quiet 0 false w).2 !! 0
    = Some (Some true).
Proof.
  intros f w w1.
  assert (init_logdirs 0 w1 = (Ret tt, (init_logdirs 0 w1).2)) as E
    by (vm_compute; reflexivity).
  split; [reflexivity|]. split; [exact E|].
  exact (proj1 (run_remote_disable_cuda quiet 0 false w _ f eq_refl E)).
Defined.

(** On the example installation: a local test without a traced model. *)
Lemma test_local_traces_a_copy_example :
  let f := example_flags "test_local" in
  let w := example_world "test_local" in
  let w1 := with_heap (<[0 := set_mode "test" f]> (heap w)) w in
  let r := test_local quiet 0 w in
  heap w !! 0 = Some f ∧
  init_logdirs 0 w1 = (Ret tt, (init_logdirs 0 w1).2) ∧
  fs_exists (traced_model_of f) (fs (init_logdirs 0 w1).2) = false ∧
  mode <$> heap r.2 !! 0 = Some "test" ∧
  cc_env_mode <$> heap r.2 !! 0 = Some (Some "local") ∧
  mode <$> heap r.2 !! 1 = Some "trace".
Proof.
  intros f w w1 r.
  assert (init_logdirs 0 w1 = (Ret tt, (init_logdirs 0 w1).2)) as E
    by (vm_compute; reflexivity).
  assert (fs_exists (traced_model_of f) (fs (init_logdirs 0 w1).2) = false)
    as Htm by (vm_compute; reflexivity).
  split; [reflexivity|]. split; [exact E|]. split; [exact Htm|].
  destruct (test_local_traces_a_copy quiet 0 w _ f eq_refl E Htm)
    as (_ & _ & _ & Hret & _).
  destruct Hret as [Hl _]; [vm_compute; reflexivity|].
  fold r in Hl. rewrite Hl. split; [reflexivity|]. split; [reflexivity|].
  vm_compute. reflexivity.
Defined.

(** On the example installation: a trace, and a remote test. *)
Lemma processes_started_per_function_example :
  heap (example_world "trace") !! 0 = Some (example_flags "trace") ∧
  started_by (trace quiet 0) (example_world "trace") = [Polybeast] ∧
  started_by (run_remote quiet 0 false) (example_world "trace")
    = [Polybeast; PantheonEnv].
Proof.
  split; [reflexivity|].
  destruct (processes_started_per_function quiet 0 (example_world "trace")
              (example_flags "trace") eq_refl) as (Hr & Ht & _).
  split.
  - apply Ht. vm_compute. reflexivity.
  - apply (Hr false). vm_compute. reflexivity.
Defined.

(** On the example installation, with a mode the parser does not offer. *)
Lemma main_dispatch_total_example :
  let w := example_world "bogus" in
  heap w !! 0 = Some (example_flags "bogus") ∧
  main quiet 0 w
    = (Raise (RuntimeError "Unknown mode bogus"), emit (EvLog "Mode=bogus") w).
Proof.
  intros w. split; [reflexivity|].
  destruct (main_dispatch_total quiet 0 w (example_flags "bogus") eq_refl)
    as (_ & _ & _ & _ & H & _).
  apply H. intros Hin. apply list_elem_of_In in Hin. simpl in Hin.
  intuition discriminate.
Defined.

(** * The filesystem outside the log directory *)

(** [os.makedirs] keeps what is there and adds directories along its path
    only. *)
Lemma mkdir_p_frame (p : list string) (X Y : FileSys) (q : list string) :
  mkdir_p [] p X = Some Y →
  (∀ n, X !! q = Some n → Y !! q = Some n) ∧
  (X !! q = None → Y !! q = None ∨ Y !! q = Some Dir ∧ q ∈ ancestors [] p).
Proof.
  intros H. rewrite (mkdir_p_lookup _ _ _ _ q H).
  destruct (decide (q ∈ ancestors [] p)) as [Hq|Hq]; [|by auto].
  split; [|by auto]. intros n Hn.
  destruct n; [|done]. exfalso.
  assert (mkdir_p [] p X = None) as E by (apply mkdir_p_None; eauto).
  congruence.
Qed.

Lemma ancestors_outside (pl q : list string) (c : string) :
  ¬ pl `prefix_of` q → q ∈ ancestors [] (pl ++ [c]) → q ∈ ancestors [] pl.
Proof.
  intros Hn [H| ->]%elem_of_ancestors_snoc; [done|].
  destruct Hn. apply snoc_under.
Qed.

Lemma kept_outside_refl (pl : list string) (X : FileSys) : kept_outside pl X X.
Proof. intros q _. auto. Qed.

Lemma kept_outside_trans (pl : list string) (X Y Z : FileSys) :
  kept_outside pl X Y → kept_outside pl Y Z → kept_outside pl X Z.
Proof.
  intros H1 H2 q Hq. destruct (H1 q Hq) as [A1 B1], (H2 q Hq) as [A2 B2].
  split; [by auto|]. intros Hx. destruct (B1 Hx) as [Hy|(Hy & ? & ?)].
  - by apply B2.
  - right. split; [by apply A2|done].
Qed.

Lemma make_run_outside (f : Flags) (pl : list string) (X Z : FileSys) ok evs :
  resolve (logdir_of f) = Some pl →
  make_run f X = (ok, Z, evs) → kept_outside pl X Z.
Proof.
  intros Hp. rewrite (make_run_resolved f pl X Hp).
  destruct (mkdir_p [] pl X) as [Y|] eqn:HY;
    [|intros [= _ <- _]; apply kept_outside_refl].
  assert (kept_outside pl X Y) as HXY.
  { intros q Hq. destruct (mkdir_p_frame pl X Y q HY) as [A B].
    split; [done|]. intros Hx. destruct (B Hx) as [?|[? Hin]]; [by left|].
    right. by apply elem_of_ancestors_nil in Hin as [? ?]. }
  destruct (mkdir_p [] (pl ++ ["torchbeast"]) Y) as [Z'|] eqn:HZ;
    intros [= _ <- _]; [|done].
  eapply kept_outside_trans; [exact HXY|].
  intros q Hq. destruct (mkdir_p_frame _ Y Z' q HZ) as [A B].
  split; [done|]. intros Hy. destruct (B Hy) as [?|[? Hin]]; [by left|].
  right. apply ancestors_outside in Hin; [|done].
  by apply elem_of_ancestors_nil in Hin as [? ?].
Qed.

Lemma clean_run_outside (f : Flags) (pl : list string) (X Y : FileSys) ok evs :
  resolve (logdir_of f) = Some pl →
  clean_run f X = (ok, Y, evs) → kept_outside pl X Y.
Proof.
  intros Hp H. apply clean_run_events in H
    as [(_ & _ & _ & ->)|[_ [(_ & _ & _ & ->)|(_ & _ & H)]]];
    try apply kept_outside_refl.
  unfold fs_rmtree in H. rewrite Hp in H.
  destruct (node_at X pl) as [[]|]; injection H as _ <-;
    try apply kept_outside_refl.
  intros q Hq. rewrite remove_under_lookup, decide_False by done. auto.
Qed.

Lemma dirs_run_outside (f : Flags) (pl : list string) (X Z : FileSys) ok evs :
  resolve (logdir_of f) = Some pl →
  dirs_run f X = (ok, Z, evs) → kept_outside pl X Z.
Proof.
  intros Hp H. apply dirs_run_split in H as (ok1 & Y & e1 & Hc & H).
  pose proof (clean_run_outside _ _ _ _ _ _ Hp Hc) as HXY.
  destruct H as [(_ & _ & -> & _)|(_ & e2 & Hm & _)]; [done|].
  eapply kept_outside_trans; [exact HXY|]. by eapply make_run_outside.
Qed.

Lemma dirs_run_unresolved (f : Flags) (X : FileSys) :
  resolve (logdir_of f) = None → (dirs_run f X).1.2 = X.
Proof.
  intros Hp. unfold dirs_run, clean_run, fs_exists. rewrite Hp.
  destruct (negb (is_train f)); by rewrite (make_run_unresolved f X Hp).
Qed.

Lemma init_logdirs_fs (l : loc) (w : World) (f : Flags) :
  heap w !! l = Some f → fs (init_logdirs l w).2 = (dirs_run f (fs w)).1.2.
Proof.
  intros Hl. destruct (init_logdirs_spec l w f Hl) as (ok & m' & evs & -> & ->).
  by destruct ok; [destruct (negb (is_train f))|].
Qed.

(** X1: with a plain log directory path, [init_logdirs] removes and
    changes nothing outside the log directory: every path that is not the log directory or below it keeps
    the node it had.  What appears outside is a directory, and only on the
    way from the root to the log directory.  With an empty log directory
    path the filesystem is left as it was. *)
Theorem init_logdirs_keeps_outside (l : loc) (w : World) (f : Flags) :
  heap w !! l = Some f →
  plain_path (os_path_join (base_logdir f) (mode f)) = true →
  let ld := os_path_join (base_logdir f) (mode f) in
  let m' := fs (init_logdirs l w).2 in
  (resolve ld = None → m' = fs w) ∧
  (∀ pl, resolve ld = Some pl →
     ∀ q, ¬ pl `prefix_of` q →
       (∀ n, fs w !! q = Some n → m' !! q = Some n) ∧
       (fs w !! q = None →
          m' !! q = None ∨ m' !! q = Some Dir ∧ q ≠ [] ∧ q `prefix_of` pl)).
Proof.
  intros Hl _ ld m'. subst ld m'. fold (logdir_of f).
  rewrite (init_logdirs_fs l w f Hl). split.
  - apply dirs_run_unresolved.
  - intros pl Hp. destruct (dirs_run f (fs w)) as [[ok Z] evs] eqn:Hd.
    cbn [fst snd]. by eapply dirs_run_outside.
Qed.

(** Making [p] and then [p/c] works when no file is in the way. *)
Lemma mkdir_p_two (p : list string) (c : string) (X : FileSys) :
  (∃ Y Z, mkdir_p [] p X = Some Y ∧ mkdir_p [] (p ++ [c]) Y = Some Z) ↔
  ∀ q, q ∈ ancestors [] (p ++ [c]) → X !! q ≠ Some File.
Proof.
  split.
  - intros (Y & Z & HY & HZ) q Hq Hf.
    assert (mkdir_p [] (p ++ [c]) Y ≠ None) as HN by congruence.
    apply HN, mkdir_p_None. exists q. split; [done|].
    by apply (mkdir_p_frame p X Y q HY).
  - intros H.
    destruct (mkdir_p [] p X) as [Y|] eqn:HY.
    + destruct (mkdir_p [] (p ++ [c]) Y) as [Z|] eqn:HZ; [by eauto|].
      apply mkdir_p_None in HZ as (q & Hq & Hf). exfalso.
      rewrite (mkdir_p_lookup _ _ _ _ q HY) in Hf.
      destruct (decide _); [done|]. by apply (H q).
    + apply mkdir_p_None in HY as (q & Hq & Hf). exfalso.
      apply (H q); [|done]. apply elem_of_ancestors_snoc. by left.
Qed.

Lemma dirs_run_train (f : Flags) (X : FileSys) :
  is_train f = true → dirs_run f X = make_run f X.
Proof.
  intros Ht. unfold dirs_run, clean_run. rewrite Ht. cbn [negb].
  by destruct (make_run f X) as [[? ?] ?].
Qed.

(** X2: in mode "train" and with a plain base directory path,
    [init_logdirs] either returns or fails with [OSError], and it returns
    exactly when no file sits at the save directory path or at one of its
    ancestors. *)
Theorem init_logdirs_train_returns_iff (l : loc) (w : World) (f : Flags) :
  heap w !! l = Some f → mode f = "train" →
  plain_path (base_logdir f) = true →
  let ld := os_path_join (base_logdir f) "train" in
  ((init_logdirs l w).1 = Ret tt ∨ (init_logdirs l w).1 = Raise OSError) ∧
  ((init_logdirs l w).1 = Ret tt ↔
   ∃ pl, resolve ld = Some pl ∧
     ∀ q, q ≠ [] → q `prefix_of` pl ++ ["torchbeast"] →
          fs w !! q ≠ Some File).
Proof.
  intros Hl Hm _ ld.
  assert (ld = logdir_of f) as -> by (unfold logdir_of; by rewrite Hm).
  pose proof (proj2 (is_train_true f) Hm) as Ht.
  destruct (init_logdirs_spec l w f Hl) as (ok & m' & evs & Hd & ->).
  rewrite Ht. cbn [negb]. rewrite (dirs_run_train f _ Ht) in Hd.
  assert (ok = true ↔
    ∃ pl, resolve (logdir_of f) = Some pl ∧
      ∀ q, q ≠ [] → q `prefix_of` pl ++ ["torchbeast"] →
           fs w !! q ≠ Some File) as Hok.
  { destruct (resolve (logdir_of f)) as [pl|] eqn:Hp.
    - rewrite (make_run_resolved f pl _ Hp) in Hd. split.
      + intros ->. exists pl. split; [done|]. intros q Hq1 Hq2.
        apply (proj1 (mkdir_p_two pl "torchbeast" (fs w))).
        * destruct (mkdir_p [] pl (fs w)) as [Y|]; [|discriminate Hd].
          destruct (mkdir_p [] (pl ++ ["torchbeast"]) Y) as [Z|] eqn:HZ;
            [|discriminate Hd].
          by exists Y, Z.
        * by apply elem_of_ancestors_nil.
      + intros (pl' & [= <-] & H).
        destruct (proj2 (mkdir_p_two pl "torchbeast" (fs w))) as (Y & Z & HY & HZ).
        { intros q [? ?]%elem_of_ancestors_nil. by apply H. }
        rewrite HY, HZ in Hd. by injection Hd as <- _ _.
    - rewrite (make_run_unresolved f _ Hp) in Hd. injection Hd as <- _ _.
      split; [done|]. by intros (pl & ? & _). }
  destruct ok; cbn [fst]; split; auto.
  - split; [intros _; by apply Hok|done].
  - split; [done|]. intros H. by apply Hok in H.
Qed.

(** X3: when the log directory path names a regular file,
    [init_logdirs] fails with [OSError] in every mode and leaves the
    filesystem as it was; [os.makedirs] is reached in mode "train" only,
    and the [checkpoint] and [traced_model] attributes are not assigned. *)
Theorem init_logdirs_logdir_is_file
    (l : loc) (w : World) (f : Flags) (pl : list string) :
  heap w !! l = Some f →
  resolve (os_path_join (base_logdir f) (mode f)) = Some pl →
  node_at (fs w) pl = Some File →
  let r := init_logdirs l w in
  r.1 = Raise OSError ∧ fs r.2 = fs w ∧
  (∃ evs, events r.2 = events w ++ evs ∧
     ∀ p, EvMakedirs p ∈ evs → mode f = "train") ∧
  ∃ g, heap r.2 !! l = Some g ∧
    checkpoint g = checkpoint f ∧ traced_model g = traced_model f.
Proof.
  intros Hl Hp Hf r. subst r. fold (logdir_of f) in Hp.
  assert (pl ≠ []) as Hne by (by intros ->).
  assert (fs w !! pl = Some File) as Hf' by (by rewrite <- node_at_cons).
  destruct (init_logdirs_spec l w f Hl) as (ok & m' & evs & Hd & ->).
  assert (ok = false ∧ m' = fs w ∧
          ∀ p, EvMakedirs p ∈ evs → mode f = "train") as (-> & -> & Hev).
  { destruct (is_train f) eqn:Ht.
    - rewrite (dirs_run_train f _ Ht), (make_run_resolved f pl _ Hp) in Hd.
      assert (mkdir_p [] pl (fs w) = None) as E.
      { apply mkdir_p_None. exists pl. split; [by apply self_ancestor|done]. }
      rewrite E in Hd. injection Hd as <- <- <-. split_and!; try done.
      intros _ _. by apply is_train_true.
    - unfold dirs_run, clean_run, fs_exists, fs_rmtree in Hd.
      rewrite Ht, Hp, Hf in Hd. cbn [negb] in Hd.
      rewrite bool_decide_true in Hd by eauto.
      injection Hd as <- <- <-. split_and!; try done.
      intros p Hin. apply list_elem_of_In in Hin. simpl in Hin.
      intuition congruence. }
  cbn [fst snd heap fs events]. split_and!; try done; [by eauto|].
  exists (with_logdirs f). split; [|done].
  apply list_lookup_insert_eq. by eapply lookup_lt_Some.
Qed.

(** * How the stages of the script end *)

(** The three ways [init_logdirs] ends. *)
Lemma init_logdirs_ends (l : loc) (w : World) (f : Flags) :
  heap w !! l = Some f →
  let r := init_logdirs l w in
  ∃ evs, events r.2 = events w ++ evs ∧ started evs = [] ∧
    (r.1 = Ret tt ∧ heap r.2 = <[l := with_paths f]> (heap w) ∨
     r.1 = Raise OSError ∧ heap r.2 = <[l := with_logdirs f]> (heap w) ∨
     r.1 = Raise (AssertionError (missing_msg f)) ∧ mode f ≠ "train" ∧
       heap r.2 = <[l := with_paths f]> (heap w)).
Proof.
  intros Hl r. subst r.
  destruct (init_logdirs_spec l w f Hl) as (ok & m' & evs & Hd & ->).
  apply dirs_run_started in Hd.
  destruct ok; [destruct (negb (is_train f)) eqn:Ht|]; cbn [fst snd heap events].
  - exists (evs ++ [EvExists (checkpoint_of f)]).
    split; [done|]. split; [by rewrite started_app, Hd|].
    apply negb_true_iff, is_train_false in Ht.
    destruct (fs_exists _ _); [by left|by right; right].
  - exists evs. split_and!; [done..|]. by left.
  - exists evs. split_and!; [done..|]. right. by left.
Qed.

Lemma stage_ends_raise (l : loc) (f g : Flags) (md : string) (ps : list proc)
    (w w' : World) (e : exn) (evs : list event) :
  heap w' !! l = Some g → base_logdir g = base_logdir f →
  events w' = events w ++ evs → started evs = [] →
  e = OSError ∨
    (∃ md', md' ∈ ["test"; "trace"] ∧
       e = AssertionError (checkpoint_missing f md')) →
  stage_ends l f md ps w (Raise e, w').
Proof.
  intros Hg Hb Hev Hst He. exists g, evs. cbn [fst snd].
  split_and!; try done. rewrite Hst. apply prefix_nil.
Qed.

Section Stages.
Variable env : Env.
Variables (l : loc) (w : World) (f : Flags).
Hypothesis Hl : heap w !! l = Some f.

(** How a stage ends when [init_logdirs] fails in it. *)
Lemma stage_aborts (md : string) (ps : list proc) (r : outcome unit * World) :
  let i := init_logdirs l (with_heap (<[l := set_mode md f]> (heap w)) w) in
  i.1 ≠ Ret tt → md ∈ ["train"; "test"; "trace"] →
  (∀ e w2, i = (Raise e, w2) → r = (Raise e, w2)) →
  stage_ends l f md ps w r.
Proof.
  intros i Hi Hmd Hr.
  assert (l < length (heap w)) as Hlt by (by eapply lookup_lt_Some).
  assert (heap (with_heap (<[l := set_mode md f]> (heap w)) w) !! l
          = Some (set_mode md f)) as Hl1 by (by eapply lookup_inserted).
  destruct (init_logdirs_ends l _ _ Hl1) as (evs & Hev & Hst & Hi').
  fold i in Hev, Hi'. cbn [with_heap heap events] in Hev, Hi'.
  rewrite !insert_twice in Hi'.
  destruct Hi' as [[? _]|[[Ho Hh]|(Ho & Hm & Hh)]]; [done|..].
  - rewrite (Hr OSError i.2) by (destruct i; cbn in *; by subst).
    apply (stage_ends_raise l f (with_logdirs (set_mode md f)) md ps w _ _ evs);
      [|done|exact Hev|done|by left].
    rewrite Hh. by apply list_lookup_insert_eq.
  - rewrite (Hr _ i.2) by (destruct i; cbn in *; by subst).
    apply (stage_ends_raise l f (with_paths (set_mode md f)) md ps w _ _ evs);
      [|done|exact Hev|done|].
    { rewrite Hh. by apply list_lookup_insert_eq. }
    right. exists md. split; [|done].
    cbn in Hm. apply list_elem_of_In in Hmd. apply list_elem_of_In.
    simpl in *. intuition.
Qed.

Lemma run_remote_stage (train : bool) :
  stage_ends l f (remote_mode train) [Polybeast; PantheonEnv] w
    (run_remote env l train w).
Proof.
  set (f1 := set_mode (remote_mode train) f).
  destruct (init_logdirs l (with_heap (<[l := f1]> (heap w)) w))
    as [o w2] eqn:E.
  assert (l < length (heap w)) as Hlt by (by eapply lookup_lt_Some).
  assert (o = Ret tt ∨ o ≠ Ret tt) as [->|Ho]
    by (destruct o as [[]|?|]; auto).
  - destruct (entered_events l w f Hl _ _ _ E) as (evs & Hev & Hst).
    rewrite (run_remote_run env l train w w2 f Hl E). cbn zeta.
    exists (remote_flags train (with_paths f1)).
    destruct (child_exits env _ _); cbn [fst snd heap events];
      rewrite Hev, <- !app_assoc; eexists;
      (split; [by apply list_lookup_insert_eq|]);
      (split; [done|]); (split; [reflexivity|]).
    + split_and!; try done. rewrite started_app, Hst. by destruct train.
    + rewrite started_app, Hst. by destruct train.
  - apply stage_aborts.
    + unfold f1 in E. by rewrite E.
    + destruct train; apply list_elem_of_In; simpl; auto.
    + intros e w2' E'. unfold f1 in E. rewrite E in E'. injection E' as -> <-.
      by apply (run_remote_abort env l w f Hl train).
Qed.

Lemma trace_stage : stage_ends l f "trace" [Polybeast] w (trace env l w).
Proof.
  set (f1 := set_mode "trace" f).
  destruct (init_logdirs l (with_heap (<[l := f1]> (heap w)) w))
    as [o w2] eqn:E.
  assert (l < length (heap w)) as Hlt by (by eapply lookup_lt_Some).
  assert (o = Ret tt ∨ o ≠ Ret tt) as [->|Ho]
    by (destruct o as [[]|?|]; auto).
  - destruct (entered_events l w f Hl _ _ _ E) as (evs & Hev & Hst).
    rewrite (trace_run env l w w2 f Hl E). cbn zeta.
    exists (with_paths f1).
    destruct (child_exits env _ _); cbn [fst snd heap events];
      rewrite Hev, <- !app_assoc; eexists;
      (split; [by apply list_lookup_insert_eq|]);
      (split; [done|]); (split; [reflexivity|]).
    + split_and!; try done. by rewrite started_app, Hst.
    + by rewrite started_app, Hst.
  - apply stage_aborts.
    + unfold f1 in E. by rewrite E.
    + apply list_elem_of_In; simpl; auto.
    + intros e w2' E'. unfold f1 in E. rewrite E in E'. injection E' as -> <-.
      by apply (trace_abort env l w _ f e Hl).
Qed.

End Stages.

Lemma checkpoint_missing_base (f g : Flags) (md : string) :
  base_logdir g = base_logdir f → checkpoint_missing g md = checkpoint_missing f md.
Proof. intros H. unfold checkpoint_missing, checkpoint_of. by rewrite H. Qed.

(** A stage seen from flags with the same base directory. *)
Lemma stage_ends_base (l : loc) (f g : Flags) md ps w r :
  base_logdir g = base_logdir f →
  stage_ends l g md ps w r → stage_ends l f md ps w r.
Proof.
  intros Hb (g' & evs & Hg & Hb' & Hev & H). exists g', evs.
  split_and!; [done|congruence|done|].
  destruct r.1 as [[]|e|].
  - unfold checkpoint_of, traced_model_of in *. by rewrite <- Hb.
  - destruct H as [? [?|(md' & ? & ->)]]; split; auto.
    right. exists md'. by rewrite (checkpoint_missing_base f g).
  - done.
Qed.

(** A stage that may start more. *)
Lemma stage_ends_more (l : loc) (f : Flags) md ps ps' w r :
  r.1 ≠ Ret tt → stage_ends l f md ps w r → stage_ends l f md (ps ++ ps') w r.
Proof.
  intros Hr (g & evs & Hg & Hb & Hev & H). exists g, evs.
  split_and!; [done..|].
  destruct r.1 as [[]|e|]; [done| |].
  - destruct H as [? ?]. split; [by apply prefix_app_r|done].
  - by apply prefix_app_r.
Qed.

(** One stage after another. *)
Lemma stage_ends_seq (l : loc) (f : Flags) md1 md2 ps1 ps2
    (m1 m2 : M unit) (w : World) :
  stage_ends l f md1 ps1 w (m1 w) →
  (∀ w' g, heap w' !! l = Some g → stage_ends l g md2 ps2 w' (m2 w')) →
  stage_ends l f md2 (ps1 ++ ps2) w ((m1 >> m2) w).
Proof.
  intros H1 H2. unfold bind.
  destruct (m1 w) as [[[]|e|] w1] eqn:E1.
  - destruct H1 as (g1 & evs1 & Hg1 & Hb1 & Hev1 & H1). cbn [fst snd] in *.
    destruct H1 as (_ & _ & _ & Hs1).
    pose proof (stage_ends_base l f g1 md2 ps2 w1 (m2 w1) Hb1 (H2 w1 g1 Hg1))
      as (g & evs & Hg & Hb & Hev & H).
    exists g, (evs1 ++ evs). split_and!; [done..|by rewrite Hev, Hev1, app_assoc|].
    rewrite started_app, Hs1.
    destruct (m2 w1).1 as [[]|e|].
    + destruct H as (? & ? & ? & ->). done.
    + destruct H as [? ?]. split; [by apply prefix_app|done].
    + by apply prefix_app.
  - apply stage_ends_more; [done|]. clear H2.
    destruct H1 as (g & evs & ? & ? & ? & ?). by exists g, evs.
  - apply stage_ends_more; [done|]. clear H2.
    destruct H1 as (g & evs & ? & ? & ? & ?). by exists g, evs.
Qed.

Section LocalStage.
Variable env : Env.
Variables (l : loc) (w : World) (f : Flags).
Hypothesis Hl : heap w !! l = Some f.

Lemma local_test_tail_ends (w4 : World) (evs0 : list event) (ps0 : list proc) :
  heap w4 !! l = Some (with_paths (set_mode "test" f)) →
  events w4 = events w ++ evs0 → started evs0 = ps0 →
  stage_ends l f "test" (ps0 ++ [PantheonEnv]) w (local_test_tail env l f w4).
Proof.
  intros H4 Hev Hs.
  assert (l < length (heap w4)) as Hlt4 by (by eapply lookup_lt_Some).
  unfold local_test_tail. exists (local_flags f).
  destruct (child_exits env _ _); cbn [fst snd heap events].
  - eexists. split; [by apply list_lookup_insert_eq|]. split; [done|].
    split; [by rewrite Hev, <- !app_assoc|].
    split_and!; try done. by rewrite !started_app, Hs.
  - eexists. split; [by apply list_lookup_insert_eq|]. split; [done|].
    split; [by rewrite Hev, <- !app_assoc|].
    by rewrite !started_app, Hs.
Qed.

Lemma test_local_stage :
  ∃ ps, (ps = [PantheonEnv] ∨ ps = [Polybeast; PantheonEnv]) ∧
    stage_ends l f "test" ps w (test_local env l w).
Proof.
  set (f1 := set_mode "test" f).
  destruct (init_logdirs l (with_heap (<[l := f1]> (heap w)) w))
    as [o w2] eqn:E.
  assert (l < length (heap w)) as Hlt by (by eapply lookup_lt_Some).
  assert (o = Ret tt ∨ o ≠ Ret tt) as [->|Ho]
    by (destruct o as [[]|?|]; auto).
  - destruct (entered_events l w f Hl _ _ _ E) as (evs & Hev & Hst).
    pose proof (test_local_lookup2 l w w2 f Hl E) as Hl2.
    destruct (fs_exists (traced_model_of f) (fs w2)) eqn:Htm.
    + exists [PantheonEnv]. split; [by left|].
      rewrite (test_local_traced env l w w2 f Hl E Htm).
      apply (local_test_tail_ends _ (evs ++ [EvExists (traced_model_of f)]) []).
      * done.
      * cbn [events]. by rewrite Hev, <- app_assoc.
      * by rewrite started_app, Hst.
    + exists [Polybeast; PantheonEnv]. split; [by right|].
      rewrite (test_local_untraced env l w w2 f Hl E Htm).
      destruct (copy_world_lookup l w w2 f Hl E) as (_ & _ & Hcc).
      pose proof (trace_copy_frame env l w w2 f Hl E) as Hfr.
      pose proof (trace_stage env _ _ _ Hcc) as (gc & evt & _ & _ & Hevt & Ht).
      set (pre := evs ++ [EvExists (traced_model_of f);
                          EvLog "Missing traced model, tracing first"] ++ evt).
      assert (events (trace env (length (heap w2)) (copy_world f w2)).2
              = events w ++ pre) as Hpre.
      { rewrite Hevt. unfold copy_world, pre. cbn [events].
        by rewrite Hev, <- !app_assoc. }
      assert (started pre = started evt) as Hsp.
      { unfold pre. by rewrite !started_app, Hst. }
      destruct (trace env (length (heap w2)) (copy_world f w2))
        as [[[]|e|] w4]; cbn [fst snd] in *.
      * destruct Ht as (_ & _ & _ & Hs).
        apply (local_test_tail_ends _ pre [Polybeast]); [done..|].
        by rewrite Hsp.
      * exists (with_paths f1), pre. split_and!; [done..|].
        destruct Ht as [Hp He]. rewrite Hsp.
        split; [by apply (prefix_app_r _ _ [PantheonEnv]) in Hp|done].
      * exists (with_paths f1), pre. split_and!; [done..|]. rewrite Hsp.
        by apply (prefix_app_r _ _ [PantheonEnv]) in Ht.
  - exists [PantheonEnv]. split; [by left|]. apply stage_aborts; [done| | |].
    + unfold f1 in E. by rewrite E.
    + apply list_elem_of_In; simpl; auto.
    + intros e w2' E'. unfold f1 in E. rewrite E in E'. injection E' as -> <-.
      by apply (test_local_abort env l w f Hl).
Qed.

End LocalStage.

(** * What [main] does *)

(** The closing log never fails after a stage that returned. *)
Lemma stage_ends_closing (l : loc) (f : Flags) md ps (m : M unit) (w : World) :
  stage_ends l f md ps w (m w) →
  let r := (m >> closing_log l) w in
  stage_ends l f md ps w r ∧
  (r.1 = Ret tt →
     ∃ mid, events r.2 = events w ++ mid ++
       [EvLog ("All done! Checkpoint: " +:+ checkpoint_of f +:+
               ", traced model: " +:+ traced_model_of f)]).
Proof.
  intros (g & evs & Hg & Hb & Hev & H) r. subst r. unfold bind.
  destruct (m w) as [[[]|e|] w1]; cbn [fst snd] in *.
  - destruct H as (Hm & Hck & Htm & Hs).
    unfold closing_log.
    erewrite run_getattr_opt by done. erewrite run_getattr_opt by done.
    unfold logging_info, emit. cbn [fst snd heap events]. split.
    + exists g, (evs ++ [EvLog ("All done! Checkpoint: " +:+ checkpoint_of f +:+
                                ", traced model: " +:+ traced_model_of f)]).
      split_and!; try done; [by rewrite Hev, app_assoc|].
      by rewrite started_app, Hs, app_nil_r.
    + intros _. exists evs. by rewrite Hev, app_assoc.
  - split; [|done]. by exists g, evs.
  - split; [|done]. by exists g, evs.
Qed.

Section Main.
Variable env : Env.
Variables (l : loc) (w : World) (f : Flags).
Hypothesis Hl : heap w !! l = Some f.

Lemma main_unfold :
  main env l w =
    ((if String.eqb (mode f) "train" then
        run_remote env l true >> trace env l >> run_remote env l false
      else if String.eqb (mode f) "test" then run_remote env l false
      else if String.eqb (mode f) "test_local" then test_local env l
      else if String.eqb (mode f) "trace" then trace env l
      else raise (RuntimeError ("Unknown mode " +:+ mode f))) >>
     closing_log l) (emit (EvLog ("Mode=" +:+ mode f)) w).
Proof.
  unfold main. erewrite run_getattr by done. by rewrite run_logging_info.
Qed.

Lemma main_branch_ends :
  mode f ∈ known_modes →
  ∃ ps,
    (mode f = "train" →
       ps = [Polybeast; PantheonEnv; Polybeast; Polybeast; PantheonEnv]) ∧
    let r := main env l w in
    stage_ends l f (if String.eqb (mode f) "trace" then "trace" else "test")
      ps (emit (EvLog ("Mode=" +:+ mode f)) w) r ∧
    (r.1 = Ret tt →
       ∃ mid, events r.2 = events w ++ [EvLog ("Mode=" +:+ mode f)] ++ mid ++
         [EvLog ("All done! Checkpoint: " +:+ checkpoint_of f +:+
                 ", traced model: " +:+ traced_model_of f)]).
Proof.
  intros Hk. rewrite main_unfold.
  set (w1 := emit (EvLog ("Mode=" +:+ mode f)) w).
  assert (heap w1 !! l = Some f) as Hl1 by done.
  assert (∀ md ps (m : M unit), stage_ends l f md ps w1 (m w1) →
    let r := (m >> closing_log l) w1 in
    stage_ends l f md ps w1 r ∧
    (r.1 = Ret tt →
       ∃ mid, events r.2 = events w ++ [EvLog ("Mode=" +:+ mode f)] ++ mid ++
         [EvLog ("All done! Checkpoint: " +:+ checkpoint_of f +:+
                 ", traced model: " +:+ traced_model_of f)])) as Hclose.
  { intros md ps m H. destruct (stage_ends_closing l f md ps m w1 H) as [A B].
    split; [done|]. intros Hr. destruct (B Hr) as [mid Hmid]. exists mid.
    rewrite Hmid. unfold w1, emit. cbn [events]. by rewrite <- !app_assoc. }
  assert (∀ s : string, mode f = s →
            String.eqb (mode f) "trace" = String.eqb s "trace") as Hmd
    by (by intros s ->).
  destruct (String.eqb_spec (mode f) "train") as [E|N1].
  { rewrite (Hmd _ E). cbn [String.eqb Ascii.eqb Bool.eqb].
    eexists. split; [reflexivity|]. apply Hclose.
    apply (stage_ends_seq l f "train" "test" [Polybeast; PantheonEnv]
             [Polybeast; Polybeast; PantheonEnv]).
    - by apply (run_remote_stage env l w1 f Hl1 true).
    - intros w' g Hg.
      apply (stage_ends_seq l g "trace" "test" [Polybeast]
               [Polybeast; PantheonEnv]).
      + by apply trace_stage.
      + intros w'' g' Hg'. by apply (run_remote_stage env l w'' g' Hg' false). }
  destruct (String.eqb_spec (mode f) "test") as [E|N2].
  { rewrite (Hmd _ E). cbn [String.eqb Ascii.eqb Bool.eqb].
    exists [Polybeast; PantheonEnv]. split; [done|]. apply Hclose.
    by apply (run_remote_stage env l w1 f Hl1 false). }
  destruct (String.eqb_spec (mode f) "test_local") as [E|N3].
  { rewrite (Hmd _ E). cbn [String.eqb Ascii.eqb Bool.eqb].
    destruct (test_local_stage env l w1 f Hl1) as (ps & _ & H).
    exists ps. split; [done|]. by apply Hclose. }
  destruct (String.eqb_spec (mode f) "trace") as [E|N4].
  { exists [Polybeast]. split; [done|]. apply Hclose. by apply trace_stage. }
  exfalso. unfold known_modes in Hk. apply list_elem_of_In in Hk.
  simpl in Hk. intuition.
Qed.

End Main.

Section MainEnds.
Variable env : Env.

Lemma main_unknown (l : loc) (w : World) (f : Flags) :
  heap w !! l = Some f → mode f ∉ known_modes →
  main env l w = (Raise (RuntimeError ("Unknown mode " +:+ mode f)),
                  emit (EvLog ("Mode=" +:+ mode f)) w).
Proof.
  intros Hl (E1 & E2 & E3 & E4)%known_modes_eqb.
  by rewrite (main_unfold env l w f Hl), E1, E2, E3, E4, run_raise.
Qed.

(** X4: when [main] returns, its mode was one of the four, the last
    thing logged is the closing message with [base_logdir/checkpoint.tar]
    and [base_logdir/traced_model.pt], the flags carry these two paths, and
    their mode is "trace" after a trace and "test" after anything else:
    "train" and "test_local" are overwritten. *)
Theorem main_returns_after_closing_log (l : loc) (w : World) (f : Flags) :
  heap w !! l = Some f →
  let r := main env l w in
  let ck := os_path_join (base_logdir f) "checkpoint.tar" in
  let tm := os_path_join (base_logdir f) "traced_model.pt" in
  r.1 = Ret tt →
  mode f ∈ known_modes ∧
  (∃ mid, events r.2 =
     events w ++ [EvLog ("Mode=" +:+ mode f)] ++ mid ++
     [EvLog ("All done! Checkpoint: " +:+ ck +:+ ", traced model: " +:+ tm)]) ∧
  ∃ g, heap r.2 !! l = Some g ∧
    checkpoint g = Some ck ∧ traced_model g = Some tm ∧
    base_logdir g = base_logdir f ∧
    mode g = if String.eqb (mode f) "trace" then "trace" else "test".
Proof.
  intros Hl r ck tm Hr. subst r.
  destruct (decide (mode f ∈ known_modes)) as [Hk|Hk].
  - split; [done|].
    destruct (main_branch_ends env l w f Hl Hk) as (ps & _ & Hs & Hc).
    split; [by apply Hc|].
    destruct Hs as (g & evs & Hg & Hb & _ & H). rewrite Hr in H.
    destruct H as (? & ? & ? & _). by exists g.
  - by rewrite (main_unknown l w f Hl Hk) in Hr.
Qed.

(** X5: the only exceptions [main] raises are [RuntimeError] for a mode
    that is none of the four, [OSError] from a filesystem call, and the
    [AssertionError] of the checkpoint test, in a test or a trace stage;
    reading an attribute of the flags never fails. *)
Theorem main_raises_only (l : loc) (w : World) (f : Flags) (e : exn) :
  heap w !! l = Some f →
  (main env l w).1 = Raise e →
  ((mode f ∉ known_modes) ∧
   e = RuntimeError ("Unknown mode " +:+ mode f)) ∨
  ((mode f ∈ known_modes) ∧
   (e = OSError ∨
    ∃ md, md ∈ ["test"; "trace"] ∧
      e = AssertionError
            ("Checkpoint " +:+ os_path_join (base_logdir f) "checkpoint.tar"
             +:+ " missing in " +:+ md +:+ " mode"))).
Proof.
  intros Hl Hr.
  destruct (decide (mode f ∈ known_modes)) as [Hk|Hk].
  - right. split; [done|].
    destruct (main_branch_ends env l w f Hl Hk) as (ps & _ & Hs & _).
    destruct Hs as (g & evs & _ & _ & _ & H). rewrite Hr in H.
    by destruct H as [_ H].
  - left. split; [done|]. rewrite (main_unknown l w f Hl Hk) in Hr.
    by injection Hr as <-.
Qed.

(** X6: in mode "train", [main] starts, in this order, [polybeast] and
    [pantheon_env] for the training, [polybeast] for the trace, and
    [polybeast] and [pantheon_env] for the test: however it ends, what it
    has started is a prefix of this list, and when it returns it is the
    whole list and the mode of the flags is "test". *)
Theorem main_train_pipeline (l : loc) (w : World) (f : Flags) :
  heap w !! l = Some f → mode f = "train" →
  let r := main env l w in
  let all := [Polybeast; PantheonEnv; Polybeast; Polybeast; PantheonEnv] in
  started_by (main env l) w `prefix_of` all ∧
  (r.1 = Ret tt →
     started_by (main env l) w = all ∧
     mode <$> heap r.2 !! l = Some "test").
Proof.
  intros Hl Hm r all. subst r.
  assert (mode f ∈ known_modes) as Hk.
  { rewrite Hm. apply list_elem_of_In. simpl. auto. }
  destruct (main_branch_ends env l w f Hl Hk) as (ps & Hps & Hs & _).
  rewrite (Hps Hm) in Hs. clear Hps.
  destruct Hs as (g & evs & Hg & _ & Hev & H).
  cbn [emit events] in Hev. rewrite <- app_assoc in Hev.
  rewrite (started_by_app _ _ _ Hev), started_app. cbn [started omap app].
  change (omap _ evs) with (started evs).
  rewrite Hm in H. cbn in H.
  destruct (main env l w).1 as [[]|e|].
  - destruct H as (Hmd & _ & _ & ->). split; [done|]. intros _.
    split; [done|]. by rewrite Hg, <- Hmd.
  - destruct H as [H _]. done.
  - done.
Qed.

End MainEnds.


Section AfterTraining.
Variable env : Env.


(** The process [trace] has started when it returns. *)
Lemma trace_returned (l : loc) (w w4 : World) (f : Flags) :
  heap w !! l = Some f →
  trace env l w = (Ret tt, w4) →
  ∃ pre post,
    events w4 = pre ++ [EvStart Polybeast (with_paths (set_mode "trace" f))]
                    ++ post.
Proof.
  intros Hl Hr.
  destruct (init_logdirs l (with_heap (<[l := set_mode "trace" f]> (heap w)) w))
    as [o w2] eqn:E.
  destruct o as [[]|e|].
  - rewrite (trace_run env l w w2 f Hl E) in Hr. cbn zeta in Hr.
    destruct (child_exits env _ _); [|done].
    injection Hr as <-. cbn [events].
    eexists (events w2 ++ [_]), [_; _]. by rewrite <- !app_assoc.
  - by rewrite (trace_abort env l w w2 f e Hl E) in Hr.
  - unfold trace in Hr. erewrite run_setattr in Hr by done.
    by erewrite run_blocked in Hr by exact E.
Qed.


End AfterTraining.

(** * The checkpoint and the traced model are out of the way *)

Lemma snoc_prefix_snoc (p : list string) (a b : string) :
  p ++ [a] `prefix_of` p ++ [b] → a = b.
Proof.
  intros [k E]. rewrite <- app_assoc in E. apply app_inv_head in E.
  by injection E.
Qed.

(** [init_logdirs] neither removes nor creates a sibling of the log
    directory. *)
Lemma dirs_run_sibling (f : Flags) (X Z : FileSys) ok evs (md name : string) :
  mode f = md → md ∈ ["train"; "test"; "trace"] →
  name ∈ ["checkpoint.tar"; "traced_model.pt"] →
  dirs_run f X = (ok, Z, evs) →
  fs_exists (os_path_join (base_logdir f) name) Z
  = fs_exists (os_path_join (base_logdir f) name) X.
Proof.
  intros Hm Hmd Hname Hd.
  assert (resolve (logdir_of f) = Some (components (base_logdir f) ++ [md]))
    as Hp.
  { unfold logdir_of. rewrite Hm. apply list_elem_of_In in Hmd. simpl in Hmd.
    destruct Hmd as [<-|[<-|[<-|[]]]]; by rewrite resolve_join_name. }
  assert (resolve (os_path_join (base_logdir f) name)
          = Some (components (base_logdir f) ++ [name])) as Hq.
  { apply list_elem_of_In in Hname. simpl in Hname.
    destruct Hname as [<-|[<-|[]]]; by rewrite resolve_join_name. }
  assert (md ≠ name) as Hne.
  { intros E0. subst name.
    apply list_elem_of_In in Hname, Hmd. simpl in Hname, Hmd.
    destruct Hmd as [<-|[<-|[<-|[]]]]; intuition discriminate. }
  pose proof (dirs_run_outside f _ X Z ok evs Hp Hd
                (components (base_logdir f) ++ [name])) as [A B].
  { by intros ?%snoc_prefix_snoc. }
  unfold fs_exists. rewrite Hq.
  rewrite !node_at_cons by (by destruct (components (base_logdir f))).
  destruct (X !! (components (base_logdir f) ++ [name])) as [n|] eqn:E.
  - by rewrite (A n eq_refl).
  - destruct (B eq_refl) as [->|(_ & _ & Hpre)]; [done|].
    by apply snoc_prefix_snoc in Hpre.
Qed.

(** X8: in the modes the script sets ("train", "test", "trace") and
    with a plain base directory path, [init_logdirs] neither removes nor
    creates the checkpoint or the traced model: each exists afterwards exactly if it did before.  So outside
    mode "train", unless a filesystem call fails, [init_logdirs] returns
    exactly when the checkpoint was there on entry. *)
Theorem init_logdirs_keeps_model_files
    (l : loc) (w : World) (f : Flags) (name : string) :
  heap w !! l = Some f →
  mode f ∈ ["train"; "test"; "trace"] →
  name ∈ ["checkpoint.tar"; "traced_model.pt"] →
  plain_path (base_logdir f) = true →
  let r := init_logdirs l w in
  fs_exists (os_path_join (base_logdir f) name) (fs r.2)
  = fs_exists (os_path_join (base_logdir f) name) (fs w) ∧
  (mode f ≠ "train" → r.1 ≠ Raise OSError →
   (r.1 = Ret tt ↔
    fs_exists (os_path_join (base_logdir f) "checkpoint.tar") (fs w) = true)).
Proof.
  intros Hl Hmd Hname _ r. subst r.
  destruct (init_logdirs_spec l w f Hl) as (ok & m' & evs & Hd & E).
  assert (fs (init_logdirs l w).2 = m') as Hfs.
  { rewrite E. by destruct ok; [destruct (negb (is_train f))|]. }
  split.
  - rewrite Hfs. by eapply dirs_run_sibling.
  - intros Hm%is_train_false Hos.
    assert (fs_exists (checkpoint_of f) m' = fs_exists (checkpoint_of f) (fs w))
      as Hck.
    { eapply (dirs_run_sibling f _ _ _ _ _ "checkpoint.tar"); [done..| |done].
      apply list_elem_of_In. simpl. auto. }
    fold (checkpoint_of f). rewrite <- Hck.
    rewrite E in *. rewrite Hm in *. cbn [negb] in *.
    destruct ok; [|done]. cbn [fst].
    destruct (fs_exists (checkpoint_of f) m'); split; done.
Qed.

Section LocalFlags.
Variable env : Env.

(** The flags [trace] leaves when it returns. *)
Lemma trace_returned_flags (l : loc) (w w4 : World) (f : Flags) :
  heap w !! l = Some f →
  trace env l w = (Ret tt, w4) →
  heap w4 !! l = Some (with_paths (set_mode "trace" f)).
Proof.
  intros Hl Hr.
  assert (l < length (heap w)) as Hlt by (by eapply lookup_lt_Some).
  destruct (init_logdirs l (with_heap (<[l := set_mode "trace" f]> (heap w)) w))
    as [o w2] eqn:E.
  destruct o as [[]|e|].
  - rewrite (trace_run env l w w2 f Hl E) in Hr. cbn zeta in Hr.
    destruct (child_exits env _ _); [|done].
    injection Hr as <-. cbn [heap]. by apply list_lookup_insert_eq.
  - by rewrite (trace_abort env l w w2 f e Hl E) in Hr.
  - unfold trace in Hr. erewrite run_setattr in Hr by done.
    by erewrite run_blocked in Hr by exact E.
Qed.

Lemma local_test_tail_returned (l : loc) (f : Flags) (w4 w5 : World) :
  l < length (heap w4) →
  local_test_tail env l f w4 = (Ret tt, w5) →
  heap w5 !! l = Some (local_flags f) ∧
  ∃ pre post,
    events w5 = pre ++ [EvStart PantheonEnv (local_flags f)] ++ post.
Proof.
  intros Hlt. unfold local_test_tail.
  destruct (child_exits env _ _); [|done]. intros [= <-]. cbn [heap events].
  split; [by apply list_lookup_insert_eq|].
  eexists (events w4 ++ [_]), [_; _]. by rewrite <- !app_assoc.
Qed.

(** The flags [test_local] leaves, and the process it has started, when
    it returns. *)
Lemma test_local_returned (l : loc) (w w5 : World) (f : Flags) :
  heap w !! l = Some f →
  test_local env l w = (Ret tt, w5) →
  heap w5 !! l = Some (local_flags f) ∧
  ∃ pre post,
    events w5 = pre ++ [EvStart PantheonEnv (local_flags f)] ++ post.
Proof.
  intros Hl Hr.
  destruct (init_logdirs l (with_heap (<[l := set_mode "test" f]> (heap w)) w))
    as [o w2] eqn:E.
  destruct o as [[]|e|].
  - pose proof (test_local_lookup2 l w w2 f Hl E) as Hl2.
    destruct (fs_exists (traced_model_of f) (fs w2)) eqn:Htm.
    + rewrite (test_local_traced env l w w2 f Hl E Htm) in Hr.
      eapply local_test_tail_returned; [|exact Hr].
      cbn [heap]. by eapply lookup_lt_Some.
    + rewrite (test_local_untraced env l w w2 f Hl E Htm) in Hr.
      pose proof (trace_copy_frame env l w w2 f Hl E) as Hfr.
      destruct (trace env (length (heap w2)) (copy_world f w2))
        as [[[]|e|] w4]; [|done..].
      eapply local_test_tail_returned; [|exact Hr].
      by eapply lookup_lt_Some.
  - by rewrite (test_local_abort env l w f Hl w2 e E) in Hr.
  - unfold test_local in Hr. erewrite run_setattr in Hr by done.
    by erewrite run_blocked in Hr by exact E.
Qed.

(** X9: [trace] and [test_local] do not assign [address] or
    [disable_cuda]: when they return, the process they started got the
    values that were in the flags on entry, and the flags still hold them.
    [trace] leaves [cc_env_mode] alone as well; [test_local] sets it to
    "local". *)
Theorem local_stages_keep_remote_settings (l : loc) (w : World) (f : Flags) :
  heap w !! l = Some f →
  ((trace env l w).1 = Ret tt →
     ∃ g pre post,
       events (trace env l w).2 = pre ++ [EvStart Polybeast g] ++ post ∧
       heap (trace env l w).2 !! l = Some g ∧
       address g = address f ∧ disable_cuda g = disable_cuda f ∧
       cc_env_mode g = cc_env_mode f) ∧
  ((test_local env l w).1 = Ret tt →
     ∃ g pre post,
       events (test_local env l w).2 = pre ++ [EvStart PantheonEnv g] ++ post ∧
       heap (test_local env l w).2 !! l = Some g ∧
       address g = address f ∧ disable_cuda g = disable_cuda f ∧
       cc_env_mode g = Some "local").
Proof.
  intros Hl. split; intros Hr.
  - destruct (trace env l w) as [o w4] eqn:E. cbn [fst snd] in *. subst o.
    destruct (trace_returned env l w w4 f Hl E) as (pre & post & Hev).
    pose proof (trace_returned_flags l w w4 f Hl E) as Hg.
    eexists _, pre, post. split; [exact Hev|]. by split.
  - destruct (test_local env l w) as [o w5] eqn:E. cbn [fst snd] in *. subst o.
    destruct (test_local_returned l w w5 f Hl E) as (Hg & pre & post & Hev).
    eexists _, pre, post. split; [exact Hev|]. by split.
Qed.

End LocalFlags.

(** On the example installation: preparing a test run keeps the
    checkpoint. *)
Lemma init_logdirs_keeps_outside_example :
  heap (example_world "test") !! 0 = Some (example_flags "test") ∧
  plain_path "logs/test" = true ∧
  fs (init_logdirs 0 (example_world "test")).2 !! ["logs"; "checkpoint.tar"]
    = Some File.
Proof.
  split; [reflexivity|]. split; [reflexivity|].
  destruct (init_logdirs_keeps_outside 0 (example_world "test")
              (example_flags "test") eq_refl eq_refl) as [_ H].
  apply (H ["logs"; "test"] eq_refl ["logs"; "checkpoint.tar"]).
  - intros [k Hk]. simpl in Hk. discriminate.
  - reflexivity.
Defined.

(** On the example installation: preparing a training run. *)
Lemma init_logdirs_train_returns_iff_example :
  heap (example_world "train") !! 0 = Some (example_flags "train") ∧
  mode (example_flags "train") = "train" ∧
  plain_path "logs" = true ∧
  ∃ pl, resolve "logs/train" = Some pl ∧
    ∀ q, q ≠ [] → q `prefix_of` pl ++ ["torchbeast"] →
         fs (example_world "train") !! q ≠ Some File.
Proof.
  split; [reflexivity|]. split; [reflexivity|]. split; [reflexivity|].
  apply (proj1 (proj2 (init_logdirs_train_returns_iff 0 (example_world "train")
                         (example_flags "train") eq_refl eq_refl eq_refl))).
  vm_compute. reflexivity.
Defined.

(** A file where the log directory should be. *)
Lemma init_logdirs_logdir_is_file_example :
  let m : FileSys := <[ ["logs"; "test"] := File ]> (<[ ["logs"] := Dir ]> ∅) in
  let w := mkWorld [example_flags "test"] m [] in
  heap w !! 0 = Some (example_flags "test") ∧
  resolve "logs/test" = Some ["logs"; "test"] ∧
  node_at m ["logs"; "test"] = Some File ∧
  (init_logdirs 0 w).1 = Raise OSError ∧ fs (init_logdirs 0 w).2 = m.
Proof.
  intros m w.
  assert (node_at m ["logs"; "test"] = Some File) as Hf
    by (vm_compute; reflexivity).
  split; [reflexivity|]. split; [reflexivity|]. split; [exact Hf|].
  destruct (init_logdirs_logdir_is_file 0 w (example_flags "test")
              ["logs"; "test"] eq_refl eq_refl Hf) as (H1 & H2 & _).
  split; assumption.
Defined.

(** On the example installation: a trace run ends with the closing log. *)
Lemma main_returns_after_closing_log_example :
  let w := example_world "trace" in
  heap w !! 0 = Some (example_flags "trace") ∧
  (main quiet 0 w).1 = Ret tt ∧
  ∃ g, heap (main quiet 0 w).2 !! 0 = Some g ∧
    checkpoint g = Some "logs/checkpoint.tar" ∧
    traced_model g = Some "logs/traced_model.pt" ∧
    base_logdir g = "logs" ∧ mode g = "trace".
Proof.
  intros w.
  assert ((main quiet 0 w).1 = Ret tt) as Hr by (vm_compute; reflexivity).
  split; [reflexivity|]. split; [exact Hr|].
  exact (proj2 (proj2 (main_returns_after_closing_log quiet 0 w
                         (example_flags "trace") eq_refl Hr))).
Defined.

(** Without the checkpoint a remote test fails on the checkpoint test. *)
Lemma main_raises_only_example :
  let w := bare_world "test" in
  let e := AssertionError "Checkpoint logs/checkpoint.tar missing in test mode" in
  heap w !! 0 = Some (example_flags "test") ∧
  (main quiet 0 w).1 = Raise e ∧
  (e = OSError ∨
   ∃ md, md ∈ ["test"; "trace"] ∧
     e = AssertionError
           ("Checkpoint logs/checkpoint.tar missing in " +:+ md +:+ " mode")).
Proof.
  intros w e.
  assert ((main quiet 0 w).1 = Raise e) as Hr by (vm_compute; reflexivity).
  split; [reflexivity|]. split; [exact Hr|].
  destruct (main_raises_only quiet 0 w (example_flags "test") e eq_refl Hr)
    as [[_ H]|[_ H]]; [discriminate H|exact H].
Defined.

(** On the example installation: the five processes of a training run. *)
Lemma main_train_pipeline_example :
  let w := example_world "train" in
  heap w !! 0 = Some (example_flags "train") ∧
  mode (example_flags "train") = "train" ∧
  started_by (main quiet 0) w
    = [Polybeast; PantheonEnv; Polybeast; Polybeast; PantheonEnv] ∧
  mode <$> heap (main quiet 0 w).2 !! 0 = Some "test".
Proof.
  intros w. split; [reflexivity|]. split; [reflexivity|].
  apply (main_train_pipeline quiet 0 w (example_flags "train") eq_refl eq_refl).
  vm_compute. reflexivity.
Defined.


(** On the example installation: the checkpoint is there before and after
    a test run is prepared. *)
Lemma init_logdirs_keeps_model_files_example :
  let w := example_world "test" in
  heap w !! 0 = Some (example_flags "test") ∧
  mode (example_flags "test") ∈ ["train"; "test"; "trace"] ∧
  "checkpoint.tar" ∈ ["checkpoint.tar"; "traced_model.pt"] ∧
  plain_path "logs" = true ∧
  fs_exists "logs/checkpoint.tar" (fs (init_logdirs 0 w).2)
    = fs_exists "logs/checkpoint.tar" (fs w).
Proof.
  intros w.
  assert (mode (example_flags "test") ∈ ["train"; "test"; "trace"]) as H1
    by (apply list_elem_of_In; simpl; auto).
  assert ("checkpoint.tar" ∈ ["checkpoint.tar"; "traced_model.pt"]) as H2
    by (apply list_elem_of_In; simpl; auto).
  split; [reflexivity|]. split; [exact H1|]. split; [exact H2|].
  split; [reflexivity|].
  exact (proj1 (init_logdirs_keeps_model_files 0 w (example_flags "test")
                  "checkpoint.tar" eq_refl H1 H2 eq_refl)).
Defined.

(** On the example installation: a trace run alone. *)
Lemma local_stages_keep_remote_settings_example :
  let w := example_world "trace" in
  heap w !! 0 = Some (example_flags "trace") ∧
  ∃ g pre post,
    events (trace quiet 0 w).2 = pre ++ [EvStart Polybeast g] ++ post ∧
    heap (trace quiet 0 w).2 !! 0 = Some g ∧
    address g = None ∧ disable_cuda g = None ∧ cc_env_mode g = None.
Proof.
  intros w. split; [reflexivity|].
  apply (local_stages_keep_remote_settings quiet 0 w (example_flags "trace")
           eq_refl).
  vm_compute. reflexivity.
Defined.

(** * When the directory phase succeeds *)

(** Outside mode "train" the directories can be made as soon as no file is
    on the way to the log directory: what is at the log directory itself
    is cleared first. *)
Lemma dirs_run_clear_way (f : Flags) (m : FileSys) (pl : list string) :
  fs_wf m → is_train f = false →
  resolve (logdir_of f) = Some pl → pl ≠ [] →
  (∀ q, q ∈ ancestors [] pl → m !! q ≠ Some File) →
  ∃ m' evs, dirs_run f m = (true, m', evs).
Proof.
  intros Hwf Ht Hp Hne Hway.
  assert (∀ X, (∀ q, pl `prefix_of` q → X !! q = None) →
               is_Some (mkdir_p [] pl X) →
               ∃ m' evs, make_run f X = (true, m', evs)) as Hmake.
  { intros X HX [Y HY]. rewrite (make_run_resolved f pl X Hp), HY.
    destruct (make_child_fresh pl "torchbeast" X Y Hne HX HY) as [Z ->].
    eauto. }
  unfold dirs_run, clean_run, fs_exists, fs_rmtree. rewrite Ht, Hp.
  cbn [negb]. rewrite node_at_cons by done.
  destruct (m !! pl) as [n|] eqn:E.
  - rewrite bool_decide_true by eauto.
    destruct n; [by destruct (Hway pl (self_ancestor pl Hne))|].
    rewrite bool_decide_true by done.
    destruct (Hmake (remove_under pl m)) as (m' & evs & ->).
    + apply remove_under_nothing.
    + by apply make_after_rmtree.
    + eauto.
  - rewrite bool_decide_false by (by intros [? ?]).
    destruct (Hmake m) as (m' & evs & ->).
    + intros q Hq. apply (wf_absent_under m pl q Hwf); [|done].
      by rewrite node_at_cons.
    + destruct (mkdir_p [] pl m) eqn:E'; [done|].
      apply mkdir_p_None in E' as (q & Hq & Hf). by destruct (Hway q Hq).
    + eauto.
Qed.

(** A path that is neither in the log directory nor on the way to it is
    there after the directory phase exactly if it was there before. *)
Lemma dirs_run_apart (f : Flags) (pl pc : list string) (X Z : FileSys) ok evs
    (path : string) :
  resolve (logdir_of f) = Some pl → resolve path = Some pc →
  ¬ pl `prefix_of` pc → ¬ pc `prefix_of` pl →
  dirs_run f X = (ok, Z, evs) →
  fs_exists path Z = fs_exists path X.
Proof.
  intros Hp Hc H1 H2 Hd.
  assert (pc ≠ []) as Hne by (intros ->; apply H2, prefix_nil).
  destruct (dirs_run_outside f pl X Z ok evs Hp Hd pc H1) as [A B].
  unfold fs_exists. rewrite Hc, !node_at_cons by done.
  destruct (X !! pc) as [n|] eqn:E.
  - by rewrite (A n eq_refl).
  - by destruct (B eq_refl) as [->|(_ & _ & ?)].
Qed.

(** C1: in every mode other than "train", the last thing [init_logdirs]
    does is ask whether [base_logdir/checkpoint.tar] exists: it returns
    when the file is there and raises [AssertionError], with the message of
    the source, when it is not.  The directories are made before: on a
    well-formed filesystem, with plain paths, a mode that is a relative
    name and no file on the way to the log directory, that does not fail,
    so the outcome is the one of the checkpoint test; and a checkpoint that lies neither in the log
    directory nor on the way to it is found exactly if it was there on
    entry.  In mode "train" [init_logdirs] raises no [AssertionError] and
    asks for the existence of nothing. *)
Theorem init_logdirs_checkpoint_precondition (l : loc) (w : World) (f : Flags) :
  heap w !! l = Some f →
  let ld := os_path_join (base_logdir f) (mode f) in
  let ck := os_path_join (base_logdir f) "checkpoint.tar" in
  let msg := "Checkpoint " +:+ ck +:+ " missing in " +:+ mode f +:+ " mode" in
  let r := init_logdirs l w in
  ∃ evs, events r.2 = events w ++ evs ∧
    (mode f ≠ "train" →
       (r.1 = Ret tt → fs_exists ck (fs r.2) = true) ∧
       (r.1 ≠ Raise OSError →
          (∃ evs0, evs = evs0 ++ [EvExists ck]) ∧
          r.1 = if fs_exists ck (fs r.2) then Ret tt
                else Raise (AssertionError msg)) ∧
       (fs_wf (fs w) → plain_path ld = true → plain_path ck = true →
        startswith_sep (mode f) = false →
        ∀ pl, resolve ld = Some pl → pl ≠ [] →
          (∀ q, q ∈ ancestors [] pl → fs w !! q ≠ Some File) →
          r.1 ≠ Raise OSError ∧
          ∀ pc, resolve ck = Some pc →
            ¬ pl `prefix_of` pc → ¬ pc `prefix_of` pl →
            fs_exists ck (fs r.2) = fs_exists ck (fs w) ∧
            r.1 = if fs_exists ck (fs w) then Ret tt
                  else Raise (AssertionError msg))) ∧
    (mode f = "train" →
       (∀ msg, r.1 ≠ Raise (AssertionError msg)) ∧
       (∀ p, EvExists p ∉ evs)).
Proof.
  intros Hl ld ck msg r.
  destruct (init_logdirs_checkpoint_test l w f Hl) as (evs & Hev & HA & HB).
  exists evs. split; [exact Hev|]. split; [|exact HB].
  intros Hm. destruct (HA Hm) as [A1 A2]. split; [exact A1|].
  split; [exact A2|].
  intros Hwf _ _ _ pl Hp Hne Hway.
  apply is_train_false in Hm.
  destruct (init_logdirs_spec l w f Hl) as (ok & m' & evs' & Hd & E).
  destruct (dirs_run_clear_way f (fs w) pl Hwf Hm Hp Hne Hway)
    as (m'' & evs'' & Hd').
  rewrite Hd' in Hd. injection Hd as <- <- <-.
  rewrite Hm in E. cbn [negb] in E.
  assert (r.1 = if fs_exists ck m'' then Ret tt
                else Raise (AssertionError msg)) as Hr.
  { subst r. rewrite E. done. }
  assert (fs r.2 = m'') as Hfs by (subst r; by rewrite E).
  split.
  - rewrite Hr. by destruct (fs_exists ck m'').
  - intros pc Hc H1 H2.
    assert (fs_exists ck m'' = fs_exists ck (fs w)) as Hsame
      by (by eapply (dirs_run_apart f pl pc)).
    rewrite Hfs, Hr, Hsame. done.
Qed.

(** C3: on a well-formed filesystem and with a plain path, running
    [init_logdirs] a second time in the same mode gives the outcome, the
    filesystem and the flags of running it once.  In mode "train" nothing
    is removed: the filesystem only grows and [shutil.rmtree] is not
    called; the run succeeds exactly when no file is on the way to the
    save directory, and the log and save directories are there
    afterwards.  In the other modes an existing log directory is removed
    first, by [shutil.rmtree] right after the existence test; with no
    file on the way to the log directory this does not fail, and whenever
    it does not fail the log directory afterwards holds the new
    [torchbeast] directory and nothing else. *)
Theorem init_logdirs_idempotent (l : loc) (w : World) (f : Flags) :
  heap w !! l = Some f → fs_wf (fs w) →
  plain_path (os_path_join (base_logdir f) (mode f)) = true →
  let ld := os_path_join (base_logdir f) (mode f) in
  let r1 := init_logdirs l w in
  let r2 := init_logdirs l r1.2 in
  (r2.1 = r1.1 ∧ fs r2.2 = fs r1.2 ∧ heap r2.2 = heap r1.2) ∧
  (mode f = "train" →
     fs w ⊆ fs r1.2 ∧
     (∃ evs, events r1.2 = events w ++ evs ∧ ∀ p, EvRmtree p ∉ evs) ∧
     ∃ pl, resolve ld = Some pl ∧
       (r1.1 = Ret tt ↔
        ∀ q, q ∈ ancestors [] (pl ++ ["torchbeast"]) → fs w !! q ≠ Some File) ∧
       (r1.1 = Ret tt →
        node_at (fs r1.2) pl = Some Dir ∧
        fs r1.2 !! (pl ++ ["torchbeast"]) = Some Dir)) ∧
  (mode f ≠ "train" →
     (fs_exists ld (fs w) = true →
        ∃ evs, events r1.2 = events w ++ EvExists ld :: EvRmtree ld :: evs ∧
          (EvMakedirs ld ∈ evs → (fs_rmtree ld (fs w)).1 = true)) ∧
     (r1.1 ≠ Raise OSError →
        ∃ pl, resolve ld = Some pl ∧
          fs r1.2 !! pl = Some Dir ∧
          fs r1.2 !! (pl ++ ["torchbeast"]) = Some Dir ∧
          ∀ q, pl `prefix_of` q → is_Some (fs r1.2 !! q) →
               q = pl ∨ q = pl ++ ["torchbeast"]) ∧
     (∀ pl, resolve ld = Some pl → pl ≠ [] →
        (∀ q, q ∈ ancestors [] pl → fs w !! q ≠ Some File) →
        r1.1 ≠ Raise OSError)).
Proof.
  intros Hl Hwf _ ld r1 r2.
  destruct (init_logdirs_rerun l w f Hl Hwf) as (Hrerun & Htrain & Htest).
  split; [exact Hrerun|]. split.
  - intros Hm. destruct (Htrain Hm) as [T1 T2].
    split; [exact T1|]. split; [exact T2|].
    pose proof (proj2 (is_train_true f) Hm) as Ht.
    assert (resolve ld = Some (components (base_logdir f) ++ ["train"])) as Hp.
    { subst ld. rewrite Hm. by rewrite resolve_join_name. }
    exists (components (base_logdir f) ++ ["train"]). split; [exact Hp|].
    set (pl := components (base_logdir f) ++ ["train"]) in *.
    destruct (init_logdirs_spec l w f Hl) as (ok & m' & evs & Hd & E).
    rewrite Ht in E. cbn [negb] in E.
    rewrite (dirs_run_train f _ Ht), (make_run_resolved f pl _ Hp) in Hd.
    split.
    + split.
      * intros Hr q Hq.
        apply (proj1 (mkdir_p_two pl "torchbeast" (fs w))); [|done].
        destruct (mkdir_p [] pl (fs w)) as [Y|];
          [|injection Hd as <- _ _; subst r1; by rewrite E in Hr].
        destruct (mkdir_p [] (pl ++ ["torchbeast"]) Y) as [Z|] eqn:HZ;
          [|injection Hd as <- _ _; subst r1; by rewrite E in Hr].
        by exists Y, Z.
      * intros Hway.
        destruct (proj2 (mkdir_p_two pl "torchbeast" (fs w)) Hway)
          as (Y & Z & HY & HZ).
        rewrite HY, HZ in Hd. injection Hd as <- _ _. subst r1. by rewrite E.
    + intros Hr.
      destruct (mkdir_p [] pl (fs w)) as [Y|] eqn:HY;
        [|injection Hd as <- _ _; subst r1; by rewrite E in Hr].
      destruct (mkdir_p [] (pl ++ ["torchbeast"]) Y) as [Z|] eqn:HZ;
        [|injection Hd as <- _ _; subst r1; by rewrite E in Hr].
      injection Hd as <- <- _.
      assert (fs r1.2 = Z) as -> by (subst r1; by rewrite E).
      assert (pl ≠ []) as Hne by (subst pl; by destruct (components _)).
      rewrite node_at_cons by done.
      rewrite !(mkdir_p_lookup _ _ _ _ _ HZ).
      rewrite !decide_True; [done| |].
      * apply self_ancestor. by destruct pl.
      * apply elem_of_ancestors_snoc. left. by apply self_ancestor.
  - intros Hm. destruct (Htest Hm) as [T1 T2].
    split; [exact T1|]. split; [exact T2|].
    intros pl Hp Hne Hway.
    apply is_train_false in Hm.
    destruct (init_logdirs_spec l w f Hl) as (ok & m' & evs & Hd & E).
    destruct (dirs_run_clear_way f (fs w) pl Hwf Hm Hp Hne Hway)
      as (m'' & evs'' & Hd').
    rewrite Hd' in Hd. injection Hd as <- <- <-.
    rewrite Hm in E. cbn [negb] in E. subst r1. rewrite E. cbn [fst].
    destruct (fs_exists (checkpoint_of f) m''); intros [=].
Qed.

(** [init_logdirs] only looks at the filesystem and changes it: it joins
    and kills nothing. *)
Lemma dirs_run_event_kinds (f : Flags) (m m' : FileSys) ok evs :
  dirs_run f m = (ok, m', evs) →
  ∀ e, e ∈ evs → ∃ p, e = EvExists p ∨ e = EvRmtree p ∨ e = EvMakedirs p.
Proof.
  intros (ok1 & m1 & e1 & Hc & H)%dirs_run_split e He.
  assert (∀ e, e ∈ e1 → ∃ p, e = EvExists p ∨ e = EvRmtree p ∨ e = EvMakedirs p)
    as H1.
  { apply clean_run_events in Hc
      as [(-> & _)|[_ [(-> & _)|(-> & _)]]]; intros e' Hin;
      apply list_elem_of_In in Hin; simpl in Hin;
      repeat (destruct Hin as [<-|Hin]; [eauto|]); done. }
  destruct H as [(_ & _ & _ & ->)|(_ & e2 & Hm & ->)]; [by apply H1|].
  apply elem_of_app in He as [He|He]; [by apply H1|].
  apply make_run_events in Hm as [(-> & _)| ->];
    apply list_elem_of_In in He; simpl in He;
    repeat (destruct He as [<-|He]; [eauto|]); done.
Qed.

Lemma init_logdirs_event_kinds (l : loc) (w : World) (f : Flags) :
  heap w !! l = Some f →
  ∃ evs, events (init_logdirs l w).2 = events w ++ evs ∧
    ∀ e, e ∈ evs → ∃ p, e = EvExists p ∨ e = EvRmtree p ∨ e = EvMakedirs p.
Proof.
  intros Hl.
  destruct (init_logdirs_spec l w f Hl) as (ok & m' & evs & Hd & ->).
  pose proof (dirs_run_event_kinds _ _ _ _ _ Hd) as Hk.
  destruct ok; [destruct (negb (is_train f))|]; cbn [snd events].
  - exists (evs ++ [EvExists (checkpoint_of f)]). split; [done|].
    intros e [?|Hin]%elem_of_app; [by apply Hk|].
    apply list_elem_of_singleton in Hin. subst e. eauto.
  - by exists evs.
  - by exists evs.
Qed.

Section JoinKill.
Variable env : Env.

(** C4: once [init_logdirs] has returned, which joins and kills nothing,
    [run_remote] removes the socket, logs, starts both processes and joins
    the one that drives the mode: [polybeast] when training,
    [pantheon_env] when testing.  When that process exits, the script
    kills the other one, logs and returns: one join, then one kill.  When
    it never exits, the script blocks in the join and kills nothing. *)
Theorem run_remote_join_then_kill
    (l : loc) (train : bool) (w w2 : World) (f : Flags) :
  heap w !! l = Some f →
  init_logdirs l
    (with_heap (<[l := set_mode (remote_mode train) f]> (heap w)) w)
    = (Ret tt, w2) →
  let r := run_remote env l train w in
  let md := if train then "train" else "test" in
  let g := remote_flags train (with_paths (set_mode md f)) in
  let evs := events w2 ++
    [EvRemove "/tmp/rl_server_path";
     EvLog ("Starting " +:+ md +:+ ", logdir=" +:+
            os_path_join (base_logdir f) md);
     EvStart Polybeast g; EvStart PantheonEnv g;
     EvJoin (if train then Polybeast else PantheonEnv)] in
  let m3 := default (fs w2) (fs_remove "/tmp/rl_server_path" (fs w2)) in
  (∃ evs0, events w2 = events w ++ evs0 ∧
     ∀ p, (EvJoin p ∉ evs0) ∧ (EvKill p ∉ evs0)) ∧
  (child_exits env evs m3 = true →
     r.1 = Ret tt ∧
     events r.2 = evs ++ [EvKill (if train then PantheonEnv else Polybeast);
                          EvLog ("Done " +:+ md)]) ∧
  (child_exits env evs m3 = false → r.1 = Blocked ∧ events r.2 = evs).
Proof.
  intros Hl Hinit r md g evs m3. subst r.
  rewrite (run_remote_run env l train w w2 f Hl Hinit). cbn zeta.
  change (child_exits env _ (socket_cleared (fs w2)))
    with (child_exits env evs m3).
  split; [|split].
  - destruct (init_logdirs_event_kinds l
      (with_heap (<[l := set_mode (remote_mode train) f]> (heap w)) w)
      (set_mode (remote_mode train) f)) as (evs0 & Hev & Hk).
    { cbn [with_heap heap]. by eapply lookup_inserted. }
    rewrite Hinit in Hev. exists evs0. split; [exact Hev|].
    intros p. split; intros [q Hq]%Hk; intuition discriminate.
  - intros ->. split; [done|]. cbn [snd events]. by rewrite <- app_assoc.
  - intros ->. done.
Qed.

End JoinKill.

(** In the example installations nothing but directories is on the way
    to the log directory of a test run. *)
Lemma example_way_clear (m : FileSys) :
  m !! ["logs"] = Some Dir → m !! ["logs"; "test"] = Some Dir →
  ∀ q, q ∈ ancestors [] ["logs"; "test"] → m !! q ≠ Some File.
Proof.
  intros H1 H2 q Hq. apply list_elem_of_In in Hq. simpl in Hq.
  destruct Hq as [<-|[<-|[]]]; congruence.
Qed.

(** Without the checkpoint, preparing a test run raises the assertion
    error; with it, the run goes on. *)
Lemma init_logdirs_checkpoint_precondition_example :
  let f := example_flags "test" in
  (heap (bare_world "test") !! 0 = Some f ∧
   (init_logdirs 0 (bare_world "test")).1
   = Raise (AssertionError
              "Checkpoint logs/checkpoint.tar missing in test mode")) ∧
  (heap (example_world "test") !! 0 = Some f ∧
   (init_logdirs 0 (example_world "test")).1 = Ret tt).
Proof.
  intros f. split; (split; [reflexivity|]).
  - destruct (init_logdirs_checkpoint_precondition 0 (bare_world "test") f
                eq_refl) as (evs & _ & H & _).
    destruct H as (_ & _ & H); [discriminate|].
    destruct (H bare_fs_wf eq_refl eq_refl eq_refl ["logs"; "test"] eq_refl)
      as [_ H'].
    { discriminate. }
    { by apply example_way_clear. }
    destruct (H' ["logs"; "checkpoint.tar"] eq_refl) as [_ ->].
    { intros [k Hk]. simpl in Hk. discriminate. }
    { intros [k Hk]. simpl in Hk. discriminate. }
    reflexivity.
  - destruct (init_logdirs_checkpoint_precondition 0 (example_world "test") f
                eq_refl) as (evs & _ & H & _).
    destruct H as (_ & _ & H); [discriminate|].
    destruct (H example_fs_wf eq_refl eq_refl eq_refl ["logs"; "test"] eq_refl)
      as [_ H'].
    { discriminate. }
    { by apply example_way_clear. }
    destruct (H' ["logs"; "checkpoint.tar"] eq_refl) as [_ ->].
    { intros [k Hk]. simpl in Hk. discriminate. }
    { intros [k Hk]. simpl in Hk. discriminate. }
    reflexivity.
Defined.

(** On the example installation, preparing a test run removes the old log
    and makes the two directories; preparing it again changes nothing. *)
Lemma init_logdirs_idempotent_example :
  let w := example_world "test" in
  let r1 := init_logdirs 0 w in
  heap w !! 0 = Some (example_flags "test") ∧
  fs_wf (fs w) ∧
  plain_path "logs/test" = true ∧
  fs w !! ["logs"; "test"; "old.log"] = Some File ∧
  fs r1.2 !! ["logs"; "test"; "old.log"] = None ∧
  fs r1.2 !! ["logs"; "test"] = Some Dir ∧
  fs r1.2 !! ["logs"; "test"; "torchbeast"] = Some Dir ∧
  fs (init_logdirs 0 r1.2).2 = fs r1.2.
Proof.
  intros w r1.
  destruct (init_logdirs_idempotent 0 w (example_flags "test")
              eq_refl example_fs_wf eq_refl) as ((_ & Hsame & _) & _ & Htest).
  destruct Htest as (_ & Hfresh & Hok); [discriminate|].
  destruct Hfresh as (pl & Hp & Hld & Hsd & Honly).
  { apply (Hok ["logs"; "test"] eq_refl); [discriminate|].
    by apply example_way_clear. }
  injection Hp as <-.
  split; [reflexivity|]. split; [exact example_fs_wf|].
  split; [reflexivity|]. split; [reflexivity|].
  split; [|split; [exact Hld|split; [exact Hsd|exact Hsame]]].
  destruct (fs r1.2 !! ["logs"; "test"; "old.log"]) as [n|] eqn:E;
    [|reflexivity].
  exfalso.
  destruct (Honly ["logs"; "test"; "old.log"]) as [H|H].
  - by exists ["old.log"].
  - fold r1. rewrite E. by eexists.
  - discriminate H.
  - discriminate H.
Defined.

(** On the example installation: a remote test run joins [pantheon_env]
    and then kills [polybeast]. *)
Lemma run_remote_join_then_kill_example :
  let f := example_flags "test" in
  let w := example_world "test" in
  let w1 := with_heap (<[0 := set_mode "test" f]> (heap w)) w in
  heap w !! 0 = Some f ∧
  init_logdirs 0 w1 = (Ret tt, (init_logdirs 0 w1).2) ∧
  (run_remote quiet 0 false w).1 = Ret tt ∧
  ∃ pre g, events (run_remote quiet 0 false w).2 =
    pre ++ [EvStart Polybeast g; EvStart PantheonEnv g;
            EvJoin PantheonEnv; EvKill Polybeast; EvLog "Done test"].
Proof.
  intros f w w1.
  assert (init_logdirs 0 w1 = (Ret tt, (init_logdirs 0 w1).2)) as E
    by (vm_compute; reflexivity).
  split; [reflexivity|]. split; [exact E|].
  destruct (run_remote_join_then_kill quiet 0 false w _ f eq_refl E)
    as (_ & [Hr He] & _); [reflexivity|].
  split; [exact Hr|].
  eexists ((init_logdirs 0 w1).2.(events) ++
             [EvRemove "/tmp/rl_server_path"; EvLog _]), _.
  rewrite He, <- !app_assoc. cbn [app]. do 6 f_equal.
Defined.
